(** * Oracle-mcp: the SQL security policy and the query execution pipeline

    A shallow embedding of [src/config.py] (SecurityMode, OracleConfig) and
    [src/database.py] (SQLValidator, OracleDatabase), and the properties of
    the access policy, the schema resolver and the result pipeline. *)

From Stdlib Require Import String Ascii List Bool NArith ZArith Lia.
Import ListNotations.

(** ** Python text

    A Python [str] is a sequence of Unicode code points.  The code only ever
    applies [upper], [strip], [split], [startswith], [in] and three regular
    expression classes to it. *)

Definition codepoint := N.
Definition pystr := list codepoint.

(** A literal of the source, written as a Rocq string (Basic Latin only). *)
Definition str (s : string) : pystr := map N_of_ascii (list_ascii_of_string s).

Open Scope N_scope.

Definition between (lo hi c : codepoint) : bool := (lo <=? c) && (c <=? hi).

(** [str.isspace] on one code point; [str.strip], [str.split] and the
    regular expression class [\s] all use this same set. *)
Definition isspace (c : codepoint) : bool :=
  between 9 13 c || between 28 32 c || (c =? 133) || (c =? 160)
  || (c =? 5760) || between 8192 8202 c || (c =? 8232) || (c =? 8233)
  || (c =? 8239) || (c =? 8287) || (c =? 12288).

Definition is_ascii (c : codepoint) : bool := c <? 128.

Fixpoint str_eqb (a b : pystr) : bool :=
  match a, b with
  | [], [] => true
  | x :: a', y :: b' => (x =? y) && str_eqb a' b'
  | _, _ => false
  end.

(** [w in collection] for a set or list of strings. *)
Definition str_in (w : pystr) (l : list pystr) : bool := existsb (str_eqb w) l.

(** [s.startswith(p)] *)
Fixpoint startswith (s p : pystr) {struct p} : bool :=
  match p with
  | [] => true
  | a :: p' =>
      match s with
      | c :: s' => (a =? c) && startswith s' p'
      | [] => false
      end
  end.

(** [s.startswith((p1, ..., pn))] *)
Definition startswith_any (s : pystr) (ps : list pystr) : bool :=
  existsb (startswith s) ps.

(** [needle in hay] for two strings: substring containment. *)
Fixpoint contains (hay needle : pystr) : bool :=
  startswith hay needle
  || match hay with
     | [] => false
     | _ :: hay' => contains hay' needle
     end.

Fixpoint lstrip (s : pystr) : pystr :=
  match s with
  | [] => []
  | c :: s' => if isspace c then lstrip s' else s
  end.

Fixpoint rstrip (s : pystr) : pystr :=
  match s with
  | [] => []
  | c :: s' =>
      match rstrip s' with
      | [] => if isspace c then [] else [c]
      | r => c :: r
      end
  end.

(** [s.strip()] *)
Definition strip (s : pystr) : pystr := rstrip (lstrip s).

(** [s.split()] with no argument: the maximal runs of non-space code points,
    in order; [cur] is the run being read, reversed. *)
Fixpoint split_from (cur : pystr) (s : pystr) : list pystr :=
  match s with
  | [] => match cur with [] => [] | _ => [rev cur] end
  | c :: s' =>
      if isspace c
      then match cur with
           | [] => split_from [] s'
           | _ => rev cur :: split_from [] s'
           end
      else split_from (c :: cur) s'
  end.

Definition split (s : pystr) : list pystr := split_from [] s.

(** ** Regular expressions of [_validate_readonly]

    The eight patterns are sequences of four kinds of item. *)

Inductive atom : Type :=
| WordBoundary
| Literal (w : pystr)
| Spaces1
| Words1.

Definition regex := list atom.

Fixpoint match_literal (w : pystr) (prev : option codepoint) (s : pystr)
  : option (option codepoint * pystr) :=
  match w with
  | [] => Some (prev, s)
  | a :: w' =>
      match s with
      | c :: s' => if a =? c then match_literal w' (Some c) s' else None
      | [] => None
      end
  end.

(** [X+] followed by the continuation [k]: every length of at least one is
    tried, as a backtracking matcher does. *)
Fixpoint one_or_more (cls : codepoint -> bool)
    (k : option codepoint -> pystr -> bool) (s : pystr) : bool :=
  match s with
  | [] => false
  | c :: s' => cls c && (one_or_more cls k s' || k (Some c) s')
  end.

(** ** config.py: the security tiers *)

Inductive SecurityMode : Type := READONLY | LIMITED_WRITE | FULL_ACCESS.

(** ** Unicode

    The parts of the Unicode character database that Python consults for a
    code point outside Basic Latin: its full upper-case mapping (one code
    point may map to several) and whether it is alphanumeric. *)
Record unicode_tables : Type := {
  upper_nonascii : codepoint -> pystr;
  alnum_nonascii : codepoint -> bool
}.

(** Tables with no case and no letters outside Basic Latin; text written in
    Basic Latin never consults them. *)
Definition latin : unicode_tables :=
  {| upper_nonascii := fun c => [c]; alnum_nonascii := fun _ => false |}.

Section UnicodeTables.

Variable ucd : unicode_tables.

Definition upper_char (c : codepoint) : pystr :=
  if is_ascii c
  then [if between 97 122 c then c - 32 else c]
  else upper_nonascii ucd c.

(** [s.upper()] *)
Definition upper (s : pystr) : pystr := flat_map upper_char s.

Definition is_alnum (c : codepoint) : bool :=
  if is_ascii c
  then between 48 57 c || between 65 90 c || between 97 122 c
  else alnum_nonascii ucd c.

(** The class [\w]. *)
Definition is_word (c : codepoint) : bool := is_alnum c || (c =? 95).

Definition word_at (c : option codepoint) : bool :=
  match c with Some x => is_word x | None => false end.

(** [\b] between the code point before the position and the one after. *)
Definition at_boundary (prev : option codepoint) (s : pystr) : bool :=
  xorb (word_at prev) (word_at (hd_error s)).

Fixpoint match_here (r : regex) (prev : option codepoint) (s : pystr)
  {struct r} : bool :=
  match r with
  | [] => true
  | WordBoundary :: r' => at_boundary prev s && match_here r' prev s
  | Literal w :: r' =>
      match match_literal w prev s with
      | Some (p, rest) => match_here r' p rest
      | None => false
      end
  | Spaces1 :: r' => one_or_more isspace (match_here r') s
  | Words1 :: r' => one_or_more is_word (match_here r') s
  end.

Fixpoint search_from (r : regex) (prev : option codepoint) (s : pystr) : bool :=
  match_here r prev s
  || match s with
     | [] => false
     | c :: s' => search_from r (Some c) s'
     end.

(** [re.search(pattern, s)] is not [None]. *)
Definition re_search (r : regex) (s : pystr) : bool := search_from r None s.

(** ** SQLValidator *)

Definition READONLY_OPERATIONS : list pystr :=
  [str "SELECT"; str "WITH"; str "DESC"; str "DESCRIBE"; str "EXPLAIN"].

Definition WRITE_OPERATIONS : list pystr :=
  [str "INSERT"; str "UPDATE"; str "MERGE"].

Definition DANGEROUS_OPERATIONS : list pystr :=
  [str "DELETE"; str "DROP"; str "CREATE"; str "ALTER"; str "TRUNCATE";
   str "GRANT"; str "REVOKE"; str "PURGE"].

Definition _extract_first_keyword (sql_upper : pystr) : pystr :=
  match split sql_upper with
  | w :: _ => w
  | [] => []
  end.

(** [\bA\s+B\b] *)
Definition two_words (a b : string) : regex :=
  [WordBoundary; Literal (str a); Spaces1; Literal (str b); WordBoundary].

Definition dangerous_patterns : list regex :=
  [ two_words "DROP" "TABLE";
    two_words "TRUNCATE" "TABLE";
    two_words "DELETE" "FROM";
    two_words "INSERT" "INTO";
    [WordBoundary; Literal (str "UPDATE"); Spaces1; Words1; Spaces1;
     Literal (str "SET"); WordBoundary];
    two_words "CREATE" "TABLE";
    two_words "ALTER" "TABLE";
    two_words "MERGE" "INTO" ].

Definition _validate_readonly (first_keyword sql_upper : pystr) : bool :=
  if negb (str_in first_keyword READONLY_OPERATIONS) then false
  else if str_eqb first_keyword (str "SELECT")
  then negb (existsb (fun pattern => re_search pattern sql_upper)
               dangerous_patterns)
  else negb (existsb (fun forbidden => contains sql_upper forbidden)
               (WRITE_OPERATIONS ++ DANGEROUS_OPERATIONS)).

Definition _validate_limited_write (first_keyword sql_upper : pystr) : bool :=
  let allowed_operations := READONLY_OPERATIONS ++ WRITE_OPERATIONS in
  if negb (str_in first_keyword allowed_operations) then false
  else negb (existsb (fun dangerous => contains sql_upper dangerous)
               DANGEROUS_OPERATIONS).

Definition validate_sql (sql : pystr) (security_mode : SecurityMode) : bool :=
  let sql_upper := strip (upper sql) in
  let first_keyword := _extract_first_keyword sql_upper in
  match security_mode with
  | READONLY => _validate_readonly first_keyword sql_upper
  | LIMITED_WRITE => _validate_limited_write first_keyword sql_upper
  | FULL_ACCESS => true
  end.


(** The message of a denial: which of the fixed texts of
    [get_error_message] it is, and the keyword that follows the colon. *)
Inductive denial_text : Type :=
| ReadonlyWriteForbidden
| ReadonlyDangerousForbidden
| ReadonlyUnsupported
| LimitedDangerousForbidden
| LimitedUnsupported
| ForbiddenByPolicy.

Definition get_error_message (sql : pystr) (security_mode : SecurityMode)
  : denial_text * pystr :=
  let sql_upper := strip (upper sql) in
  let first_keyword := _extract_first_keyword sql_upper in
  match security_mode with
  | READONLY =>
      if str_in first_keyword WRITE_OPERATIONS
      then (ReadonlyWriteForbidden, first_keyword)
      else if str_in first_keyword DANGEROUS_OPERATIONS
      then (ReadonlyDangerousForbidden, first_keyword)
      else (ReadonlyUnsupported, first_keyword)
  | LIMITED_WRITE =>
      if str_in first_keyword DANGEROUS_OPERATIONS
      then (LimitedDangerousForbidden, first_keyword)
      else (LimitedUnsupported, first_keyword)
  | FULL_ACCESS => (ForbiddenByPolicy, [])
  end.

(** ** OracleConfig: the fields the policy and the pipeline read *)

Record OracleConfig : Type := {
  security_mode : SecurityMode;
  allowed_schemas : list pystr;
  enable_query_log : bool;
  max_result_rows : Z
}.

Definition is_readonly_mode (config : OracleConfig) : bool :=
  match security_mode config with READONLY => true | _ => false end.

Definition is_all_schemas_allowed (config : OracleConfig) : bool :=
  str_in (str "*") (allowed_schemas config).

Definition is_auto_discover_schemas (config : OracleConfig) : bool :=
  str_in (str "auto") (allowed_schemas config).

(** ** The driver

    What [cx_Oracle] hands back: column values, a cursor after [execute],
    and a database that answers [connect] and [execute]. *)

Inductive value : Type :=
| VNone
| VNum (z : Z)
| VText (s : pystr)
| VLob (content : pystr)
| VDateTime (isoformat : pystr).

Record cursor : Type := {
  description : option (list pystr);
  fetchall : list (list value);
  rowcount : Z
}.

Inductive reply : Type :=
| Raises
| Returns (c : cursor).

Record oracle : Type := {
  connect : bool;
  execute : pystr -> list value -> reply
}.

Inductive event : Type :=
| Connect
| Execute (sql : pystr) (params : list value)
| FetchAll
| Commit
| CloseCursor
| CloseConnection.

Inductive error : Type :=
| PolicyViolation (message : denial_text * pystr)
| NotReadonly
| DatabaseError
| TypeError
| IndexError.

(** ** Calls on the driver, and exceptions

    A computation yields the driver calls it made, in order, and either the
    exception it raised or its value. *)

Definition io (A : Type) : Type := (list event * (error + A))%type.

Definition ret {A : Type} (a : A) : io A := ([], inr a).

Definition raise {A : Type} (e : error) : io A := ([], inl e).

Definition emit (ev : event) : io unit := ([ev], inr tt).

Definition bind {A B : Type} (m : io A) (k : A -> io B) : io B :=
  match m with
  | (t, inl e) => (t, inl e)
  | (t, inr a) => (t ++ fst (k a), snd (k a))
  end.

Definition lift {A : Type} (r : error + A) : io A := ([], r).

(** [try: m finally: cleanup] *)
Definition finally {A : Type} (m : io A) (cleanup : list event) : io A :=
  (fst m ++ cleanup, snd m).

(** [try: m except Exception: handler] *)
Definition try_except {A : Type} (m : io A) (handler : error -> io A) : io A :=
  match m with
  | (t, inl e) => (t ++ fst (handler e), snd (handler e))
  | (t, inr a) => (t, inr a)
  end.

Notation "x <- m ;; k" := (bind m (fun x => k))
  (at level 61, m at next level, right associativity).
Notation "m ;;; k" := (bind m (fun _ => k))
  (at level 61, right associativity).

(** ** Result rows *)

(** A Python [dict] with string keys, in insertion order. *)
Definition record := list (pystr * value).

(** [d[k] = v] *)
Fixpoint dict_set (d : record) (k : pystr) (v : value) : record :=
  match d with
  | [] => [(k, v)]
  | (k', v') :: d' =>
      if str_eqb k' k then (k', v) :: d' else (k', v') :: dict_set d' k v
  end.

(** The two special cases of the conversion loop: a LOB is read, a value
    with [isoformat] is formatted. *)
Definition normalize (v : value) : value :=
  match v with
  | VLob content => VText content
  | VDateTime iso => VText iso
  | other => other
  end.

(** The inner loop [for i, col_name in enumerate(columns)], from index [i]
    with the dictionary built so far. *)
Fixpoint row_dict_from (columns : list pystr) (row : list value) (i : nat)
    (row_dict : record) : error + record :=
  match columns with
  | [] => inr row_dict
  | col_name :: columns' =>
      match nth_error row i with
      | None => inl IndexError
      | Some v =>
          row_dict_from columns' row (S i)
            (dict_set row_dict col_name (normalize v))
      end
  end.

Definition row_dict (columns : list pystr) (row : list value) : error + record :=
  row_dict_from columns row 0%nat [].

(** The outer loop [for row in rows]. *)
Fixpoint build_results (columns : list pystr) (rows : list (list value))
  : error + list record :=
  match rows with
  | [] => inr []
  | row :: rows' =>
      match row_dict columns row with
      | inl e => inl e
      | inr d =>
          match build_results columns rows' with
          | inl e => inl e
          | inr ds => inr (d :: ds)
          end
      end
  end.

(** [l[:n]] *)
Definition slice_to {A : Type} (n : Z) (l : list A) : list A :=
  if (0 <=? n)%Z then firstn (Z.to_nat n) l
  else firstn (Z.to_nat (Z.of_nat (length l) + n)) l.

Definition truncate (config : OracleConfig) (results : list record)
  : list record :=
  if (max_result_rows config <? Z.of_nat (length results))%Z
  then slice_to (max_result_rows config) results
  else results.

(** [[desc[0] for desc in cursor.description]] *)
Definition column_names (c : cursor) : error + list pystr :=
  match description c with
  | None => inl TypeError
  | Some columns => inr columns
  end.

(** ** OracleDatabase *)

Definition alter_session : pystr :=
  str "ALTER SESSION SET QUERY_REWRITE_ENABLED = FALSE".

(** [with self.get_connection() as conn: body] *)
Definition get_connection {A : Type} (config : OracleConfig) (db : oracle)
    (body : io A) : io A :=
  emit Connect ;;;
  if connect db
  then finally
         ((if is_readonly_mode config
           then emit (Execute alter_session []) ;;;
                match execute db alter_session [] with
                | Raises => raise DatabaseError
                | Returns _ => emit CloseCursor
                end
           else ret tt) ;;;
          body)
         [CloseConnection]
  else raise DatabaseError.

(** [params or []] *)
Definition params_or_empty (params : option (list value)) : list value :=
  match params with
  | Some (v :: vs) => v :: vs
  | _ => []
  end.

Definition query_prefixes : list pystr :=
  [str "SELECT"; str "WITH"; str "DESC"; str "DESCRIBE"; str "EXPLAIN"].

(** The test of the result branch. *)
Definition is_query (sql : pystr) : bool :=
  startswith_any (strip (upper sql)) query_prefixes.

Definition summary (affected_rows : Z) : record :=
  [(str "affected_rows", VNum affected_rows);
   (str "status", VText (str "success"))].

(** The body of the [try] once the cursor has executed the statement. *)
Definition fetch_or_commit (config : OracleConfig) (sql : pystr) (c : cursor)
  : io (list record) :=
  if is_query sql
  then columns <- lift (column_names c) ;;
       emit FetchAll ;;;
       results <- lift (build_results columns (fetchall c)) ;;
       ret (truncate config results)
  else emit Commit ;;;
       ret [summary (rowcount c)].

(** Everything of [execute_query] after the security check. *)
Definition run_statement (config : OracleConfig) (db : oracle) (sql : pystr)
    (params : option (list value)) : io (list record) :=
  get_connection config db
    (finally
       (emit (Execute sql (params_or_empty params)) ;;;
        match execute db sql (params_or_empty params) with
        | Raises => raise DatabaseError
        | Returns c => fetch_or_commit config sql c
        end)
       [CloseCursor]).

Definition execute_query (config : OracleConfig) (db : oracle) (sql : pystr)
    (params : option (list value)) : io (list record) :=
  if negb (validate_sql sql (security_mode config))
  then raise (PolicyViolation (get_error_message sql (security_mode config)))
  else run_statement config db sql params.

Definition execute_safe_query (config : OracleConfig) (db : oracle)
    (sql : pystr) (params : option (list value)) : io (list record) :=
  if negb (validate_sql sql READONLY)
  then raise NotReadonly
  else execute_query config db sql params.

Definition test_sql : pystr :=
  str "
                SELECT DISTINCT OWNER 
                FROM ALL_TABLES 
                WHERE OWNER = :schema
                ".

Definition _is_schema_allowed (config : OracleConfig) (db : oracle)
    (schema : pystr) : io bool :=
  if is_all_schemas_allowed config then ret true
  else if is_auto_discover_schemas config
  then try_except
         (result <- execute_safe_query config db test_sql
                      (Some [VText (upper schema)]) ;;
          ret (0 <? length result)%nat)
         (fun _ => ret false)
  else ret (str_in (upper schema) (map upper (allowed_schemas config))).

(** ** The vocabulary of the specification *)

(** The upper-cased, stripped text of a statement and its leading keyword,
    as [validate_sql] computes them. *)
Definition sql_upper (sql : pystr) : pystr := strip (upper sql).

Definition leading_keyword (sql : pystr) : pystr :=
  _extract_first_keyword (sql_upper sql).

(** A keyword appears as a token: it is one of the white-space delimited
    words of the text. *)
Definition appears_as_token (keyword text : pystr) : bool :=
  str_in keyword (split text).

(** A keyword appears as a word of its own in the sense of [\b]. *)
Definition appears_as_word (keyword text : pystr) : bool :=
  re_search [WordBoundary; Literal keyword; WordBoundary] text.

(** What a pattern means, item by item: [matches r prev s] says that [r]
    matches a prefix of [s] when [prev] is the code point before it. *)
Fixpoint last_seen (w : pystr) (prev : option codepoint) : option codepoint :=
  match w with
  | [] => prev
  | c :: w' => last_seen w' (Some c)
  end.

Inductive matches : regex -> option codepoint -> pystr -> Prop :=
| matches_end prev s : matches [] prev s
| matches_boundary r prev s :
    at_boundary prev s = true -> matches r prev s ->
    matches (WordBoundary :: r) prev s
| matches_literal w r prev rest :
    matches r (last_seen w prev) rest ->
    matches (Literal w :: r) prev (w ++ rest)
| matches_spaces r prev c run rest :
    forallb isspace (c :: run) = true ->
    matches r (last_seen (c :: run) prev) rest ->
    matches (Spaces1 :: r) prev (c :: run ++ rest)
| matches_words r prev c run rest :
    forallb is_word (c :: run) = true ->
    matches r (last_seen (c :: run) prev) rest ->
    matches (Words1 :: r) prev (c :: run ++ rest).

(** The pattern occurs somewhere in the text. *)
Definition occurs (r : regex) (s : pystr) : Prop :=
  exists before after,
    s = before ++ after /\ matches r (last_seen before None) after.

(** White-space code points have no case: their upper-case mapping is white
    space again. *)
Definition upper_keeps_space : Prop :=
  forall c, isspace c = true -> forallb isspace (upper_nonascii ucd c) = true.

(** The case mapping never deletes a code point and never turns white
    space into something else or something else into white space. *)
Definition upper_respects_space : Prop :=
  forall c,
    upper_nonascii ucd c <> []
    /\ forallb (fun x => Bool.eqb (isspace x) (isspace c))
         (upper_nonascii ucd c) = true.

(** The session of one call is open: [cx_Oracle.connect] succeeded and,
    under the read-only tier, so did the ALTER SESSION statement. *)
Definition session_opens (config : OracleConfig) (db : oracle) : bool :=
  connect db
  && (if is_readonly_mode config
      then match execute db alter_session [] with
           | Raises => false
           | Returns _ => true
           end
      else true).

(** The driver calls that open the session. *)
Definition session_events (config : OracleConfig) : list event :=
  Connect ::
  (if is_readonly_mode config
   then [Execute alter_session []; CloseCursor]
   else []).

(** A call got as far as the database. *)
Definition reaches_database {A : Type} (m : io A) : Prop := In Connect (fst m).

(** ** Sample data *)

Definition created_at_query : pystr := str "SELECT CREATED_AT FROM T".

Definition with_query : pystr :=
  str "WITH X AS (SELECT CREATED_AT FROM LOG) SELECT * FROM X".

Definition select_star_query : pystr := str "SELECT*FROM T".

Definition merge_query : pystr :=
  str "MERGE INTO t USING s ON (t.id = s.id) WHEN MATCHED THEN UPDATE SET t.v = s.v".

Definition two_column_query : pystr := str "SELECT ID, NAME FROM T".

Definition blank : pystr := [32; 9; 10; 160].

Definition config_of (mode : SecurityMode) (schemas : list pystr) (cap : Z)
  : OracleConfig :=
  {| security_mode := mode; allowed_schemas := schemas;
     enable_query_log := false; max_result_rows := cap |}.

Definition five_rows : cursor :=
  {| description := Some [str "ID"; str "NAME"];
     fetchall := [ [VNum 1; VText (str "a")]; [VNum 2; VLob (str "b")];
                   [VNum 3; VDateTime (str "2025-01-02T03:04:05")];
                   [VNum 4; VNone]; [VNum 5; VText (str "e")] ];
     rowcount := 5 |}.

Definition five_row_db : oracle :=
  {| connect := true; execute := fun _ _ => Returns five_rows |}.

Definition broken_db : oracle :=
  {| connect := true; execute := fun _ _ => Raises |}.

(** ** The rest of config.py: what a tier allows *)

Definition is_write_allowed (config : OracleConfig) : bool :=
  match security_mode config with
  | LIMITED_WRITE | FULL_ACCESS => true
  | READONLY => false
  end.

Definition is_dangerous_operation_allowed (config : OracleConfig) : bool :=
  match security_mode config with FULL_ACCESS => true | _ => false end.

Definition should_validate_schema (config : OracleConfig) : bool :=
  negb (is_all_schemas_allowed config || is_auto_discover_schemas config).

(** Outside Basic Latin too, upper-casing twice is upper-casing once. *)
Definition upper_idempotent : Prop :=
  forall c, is_ascii c = false ->
            upper (upper_nonascii ucd c) = upper_nonascii ucd c.

(** [d.get(k)] *)
Fixpoint dict_get (d : record) (k : pystr) : option value :=
  match d with
  | [] => None
  | (k', v) :: d' => if str_eqb k' k then Some v else dict_get d' k
  end.

(** ** The rest of OracleDatabase: the catalog queries *)

Definition all_tables_sql : pystr :=
  str "
        SELECT 
            OWNER AS schemaname,
            TABLE_NAME AS tablename,
            'BASE TABLE' AS tabletype,
            NUM_ROWS AS row_count,
            COMMENTS AS table_comment
        FROM ALL_TABLES t
        LEFT JOIN ALL_TAB_COMMENTS c 
            ON t.OWNER = c.OWNER AND t.TABLE_NAME = c.TABLE_NAME
        WHERE t.OWNER = :schema
        ORDER BY t.TABLE_NAME
        ".

Definition available_schemas_sql : pystr :=
  str "
        SELECT DISTINCT OWNER AS schemaname,
               COUNT(TABLE_NAME) AS table_count
        FROM ALL_TABLES 
        WHERE OWNER NOT IN ('SYS', 'SYSTEM', 'CTXSYS', 'MDSYS', 'OLAPSYS', 'ORDSYS', 'OUTLN', 'WMSYS', 'XDB')
        GROUP BY OWNER
        ORDER BY OWNER
        ".

Definition table_structure_sql : pystr :=
  str "
        SELECT 
            c.COLUMN_NAME as column_name,
            c.DATA_TYPE as data_type,
            c.DATA_LENGTH as character_maximum_length,
            c.DATA_PRECISION as numeric_precision,
            c.DATA_SCALE as numeric_scale,
            CASE WHEN c.NULLABLE = 'Y' THEN 'YES' ELSE 'NO' END as is_nullable,
            c.DATA_DEFAULT as column_default,
            c.COLUMN_ID as ordinal_position,
            CASE 
                WHEN cc.CONSTRAINT_TYPE = 'P' THEN 'YES'
                ELSE 'NO'
            END as is_primary_key,
            com.COMMENTS as column_comment
        FROM ALL_TAB_COLUMNS c
        LEFT JOIN ALL_COL_COMMENTS com 
            ON c.OWNER = com.OWNER AND c.TABLE_NAME = com.TABLE_NAME AND c.COLUMN_NAME = com.COLUMN_NAME
        LEFT JOIN (
            SELECT cc.OWNER, cc.TABLE_NAME, cc.COLUMN_NAME, c.CONSTRAINT_TYPE
            FROM ALL_CONS_COLUMNS cc
            JOIN ALL_CONSTRAINTS c ON cc.CONSTRAINT_NAME = c.CONSTRAINT_NAME 
                AND cc.OWNER = c.OWNER
            WHERE c.CONSTRAINT_TYPE = 'P'
        ) cc ON c.OWNER = cc.OWNER AND c.TABLE_NAME = cc.TABLE_NAME AND c.COLUMN_NAME = cc.COLUMN_NAME
        WHERE c.TABLE_NAME = :table_name
            AND c.OWNER = :schema
        ORDER BY c.COLUMN_ID
        ".

Definition table_indexes_sql : pystr :=
  str "
            SELECT 
                i.INDEX_NAME as indexname,
                CASE WHEN i.UNIQUENESS = 'UNIQUE' THEN 'YES' ELSE 'NO' END as is_unique,
                LISTAGG(ic.COLUMN_NAME, ', ') WITHIN GROUP (ORDER BY ic.COLUMN_POSITION) as index_columns
            FROM ALL_INDEXES i
            JOIN ALL_IND_COLUMNS ic ON i.INDEX_NAME = ic.INDEX_NAME AND i.OWNER = ic.INDEX_OWNER
            WHERE i.TABLE_NAME = :table_name 
                AND i.OWNER = :schema
                AND i.INDEX_TYPE != 'LOB'
            GROUP BY i.INDEX_NAME, i.UNIQUENESS
            ORDER BY i.INDEX_NAME
            ".

Definition table_constraints_sql : pystr :=
  str "
            SELECT 
                c.CONSTRAINT_NAME as constraint_name,
                CASE c.CONSTRAINT_TYPE 
                    WHEN 'P' THEN 'PRIMARY KEY'
                    WHEN 'R' THEN 'FOREIGN KEY'
                    WHEN 'U' THEN 'UNIQUE'
                    WHEN 'C' THEN 'CHECK'
                    ELSE c.CONSTRAINT_TYPE
                END as constraint_type,
                cc.COLUMN_NAME as column_name,
                CASE 
                    WHEN c.CONSTRAINT_TYPE = 'R' THEN
                        rc.OWNER || '.' || rc.TABLE_NAME || '.' || rcc.COLUMN_NAME
                    ELSE NULL
                END as foreign_key_references
            FROM ALL_CONSTRAINTS c
            LEFT JOIN ALL_CONS_COLUMNS cc ON c.CONSTRAINT_NAME = cc.CONSTRAINT_NAME 
                AND c.OWNER = cc.OWNER
            LEFT JOIN ALL_CONSTRAINTS rc ON c.R_CONSTRAINT_NAME = rc.CONSTRAINT_NAME
            LEFT JOIN ALL_CONS_COLUMNS rcc ON rc.CONSTRAINT_NAME = rcc.CONSTRAINT_NAME 
                AND rc.OWNER = rcc.OWNER
            WHERE c.TABLE_NAME = :table_name
                AND c.OWNER = :schema
                AND c.CONSTRAINT_TYPE IN ('P', 'R', 'U', 'C')
            ORDER BY c.CONSTRAINT_TYPE, c.CONSTRAINT_NAME
            ".

Definition connection_test_sql : pystr := str "SELECT 1 FROM DUAL".

(** The three forms of the text that [_get_allowed_schemas_display]
    returns: the wild-card text, the auto-discovery text, or the printed
    list of configured names. *)
Inductive schemas_display : Type :=
| AllSchemas
| AutoDiscover
| Listed (names : list pystr).

Definition _get_allowed_schemas_display (config : OracleConfig)
  : schemas_display :=
  if is_all_schemas_allowed config then AllSchemas
  else if is_auto_discover_schemas config then AutoDiscover
  else Listed (allowed_schemas config).

(** What a schema-scoped call can raise: the ValueError of the schema
    check, with the schema and the display of what is allowed, or whatever
    the pipeline raised. *)
Inductive failure : Type :=
| SchemaNotAllowed (schema : pystr) (allowed : schemas_display)
| Raised (e : error).

Definition call (A : Type) : Type := (list event * (failure + A))%type.

Definition from_io {A : Type} (m : io A) : call A :=
  (fst m, match snd m with inl e => inl (Raised e) | inr a => inr a end).

(** [if schema is None: schema = self.config.username.upper()] *)
Definition default_schema (username : pystr) (schema : option pystr) : pystr :=
  match schema with
  | None => upper username
  | Some s => s
  end.

(** [if not self._is_schema_allowed(schema): raise ValueError(...)] and
    then the rest of the method. *)
Definition check_schema {A : Type} (config : OracleConfig) (db : oracle)
    (schema : pystr) (rest : io A) : call A :=
  match _is_schema_allowed config db schema with
  | (t, inl e) => (t, inl (Raised e))
  | (t, inr false) =>
      (t, inl (SchemaNotAllowed schema (_get_allowed_schemas_display config)))
  | (t, inr true) => (t ++ fst (from_io rest), snd (from_io rest))
  end.

Definition get_all_tables (config : OracleConfig) (username : pystr)
    (db : oracle) (schema : option pystr) : call (list record) :=
  let schema := default_schema username schema in
  check_schema config db schema
    (execute_safe_query config db all_tables_sql (Some [VText schema])).

Definition get_available_schemas (config : OracleConfig) (db : oracle)
  : io (list record) :=
  execute_safe_query config db available_schemas_sql None.

Definition get_table_structure (config : OracleConfig) (username : pystr)
    (db : oracle) (table_name : pystr) (schema : option pystr)
  : call (list record) :=
  let schema := default_schema username schema in
  check_schema config db schema
    (execute_safe_query config db table_structure_sql
       (Some [VText (upper table_name); VText (upper schema)])).

Definition get_table_indexes (config : OracleConfig) (username : pystr)
    (db : oracle) (table_name : pystr) (schema : option pystr)
  : call (list record) :=
  let schema := default_schema username schema in
  check_schema config db schema
    (try_except
       (execute_safe_query config db table_indexes_sql
          (Some [VText (upper table_name); VText (upper schema)]))
       (fun _ => ret [])).

Definition get_table_constraints (config : OracleConfig) (username : pystr)
    (db : oracle) (table_name : pystr) (schema : option pystr)
  : call (list record) :=
  let schema := default_schema username schema in
  check_schema config db schema
    (try_except
       (execute_safe_query config db table_constraints_sql
          (Some [VText (upper table_name); VText (upper schema)]))
       (fun _ => ret [])).

(** [x == 1] for a column value. *)
Definition equals_one (v : value) : bool :=
  match v with
  | VNum z => (z =? 1)%Z
  | _ => false
  end.

(** [len(result) > 0 and list(result[0].values())[0] == 1] *)
Definition first_value_is_one (result : list record) : error + bool :=
  match result with
  | [] => inr false
  | [] :: _ => inl IndexError
  | ((_, v) :: _) :: _ => inr (equals_one v)
  end.

Definition test_connection (config : OracleConfig) (db : oracle) : io bool :=
  try_except
    (result <- execute_safe_query config db connection_test_sql None ;;
     lift (first_value_is_one result))
    (fun _ => ret false).

(** The statements that the class sends on its own behalf. *)
Definition catalog_queries : list pystr :=
  [all_tables_sql; available_schemas_sql; table_structure_sql;
   table_indexes_sql; table_constraints_sql; connection_test_sql; test_sql].

Definition one_row : cursor :=
  {| description := Some [str "1"]; fetchall := [[VNum 1]]; rowcount := 1 |}.

Definition dual_db : oracle :=
  {| connect := true; execute := fun _ _ => Returns one_row |}.

(** ** The rest of config.py: reading the environment *)

(** [str.lower] needs the lower-case mapping of the code points outside
    Basic Latin, and [int(text)] is Python's own parser: [None] stands for
    its ValueError. *)
Record python_builtins : Type := {
  lower_nonascii : codepoint -> pystr;
  py_int : pystr -> option Z
}.

Variable py : python_builtins.

Definition lower_char (c : codepoint) : pystr :=
  if is_ascii c
  then [if between 65 90 c then c + 32 else c]
  else lower_nonascii py c.

(** [s.lower()] *)
Definition lower (s : pystr) : pystr := flat_map lower_char s.

(** [s.split(sep)] for a one-character separator. *)
Fixpoint split_on (sep : codepoint) (s : pystr) : list pystr :=
  match s with
  | [] => [[]]
  | c :: s' =>
      if c =? sep then [] :: split_on sep s'
      else match split_on sep s' with
           | w :: ws => (c :: w) :: ws
           | [] => [[c]]
           end
  end.

(** [sep.join(pieces)] *)
Fixpoint join (sep : pystr) (pieces : list pystr) : pystr :=
  match pieces with
  | [] => []
  | [w] => w
  | w :: ws => w ++ sep ++ join sep ws
  end.

(** The value of a member of the enumeration, and [SecurityMode(text)]. *)
Definition mode_value (m : SecurityMode) : pystr :=
  match m with
  | READONLY => str "readonly"
  | LIMITED_WRITE => str "limited_write"
  | FULL_ACCESS => str "full_access"
  end.

Definition mode_of_value (text : pystr) : option SecurityMode :=
  if str_eqb text (str "readonly") then Some READONLY
  else if str_eqb text (str "limited_write") then Some LIMITED_WRITE
  else if str_eqb text (str "full_access") then Some FULL_ACCESS
  else None.

(** [validate_security_mode] on a string; [None] is its ValueError. *)
Definition validate_security_mode (v : pystr) : option SecurityMode :=
  mode_of_value (lower v).

(** [validate_schemas]; [None] is its ValueError. *)
Definition validate_schemas (v : list pystr) : option (list pystr) :=
  match v with
  | [] => None
  | _ => Some v
  end.

(** [os.getenv] *)
Definition environment := pystr -> option pystr.

(** The values that [from_env] puts into [config_data]. *)
Inductive setting : Type :=
| SText (s : pystr)
| SInt (z : Z)
| SFlag (b : bool)
| SNames (names : list pystr).

Definition config_data := list (pystr * setting).

Fixpoint data_set (d : config_data) (k : pystr) (v : setting) : config_data :=
  match d with
  | [] => [(k, v)]
  | (k', v') :: d' =>
      if str_eqb k' k then (k', v) :: d' else (k', v') :: data_set d' k v
  end.

Fixpoint data_get (d : config_data) (k : pystr) : option setting :=
  match d with
  | [] => None
  | (k', v) :: d' => if str_eqb k' k then Some v else data_get d' k
  end.

Inductive env_error : Type :=
| PortNotAnInteger
| MissingVariables (names : list pystr)
| NoServiceNameOrSid
| BadFormat (env_var : pystr).

Definition required_env_vars : list (pystr * pystr) :=
  [(str "ORACLE_HOST", str "host");
   (str "ORACLE_PORT", str "port");
   (str "ORACLE_USERNAME", str "username");
   (str "ORACLE_PASSWORD", str "password")].

(** The loop over [required_env_vars]. *)
Fixpoint read_required (env : environment) (vars : list (pystr * pystr))
    (data : config_data) (missing_vars : list pystr)
  : env_error + (config_data * list pystr) :=
  match vars with
  | [] => inr (data, missing_vars)
  | (env_var, field_name) :: vars' =>
      match env env_var with
      | None => read_required env vars' data (missing_vars ++ [env_var])
      | Some value =>
          if str_eqb field_name (str "port")
          then match py_int py value with
               | None => inl PortNotAnInteger
               | Some n =>
                   read_required env vars' (data_set data field_name (SInt n))
                     missing_vars
               end
          else read_required env vars' (data_set data field_name (SText value))
                 missing_vars
      end
  end.

Inductive converter : Type := ToInt | ToText | ToNames | ToFlag.

Definition convert (k : converter) (x : pystr) : option setting :=
  match k with
  | ToInt => option_map SInt (py_int py x)
  | ToText => Some (SText x)
  | ToNames => Some (SNames (split_on 44 x))
  | ToFlag => Some (SFlag (str_eqb (lower x) (str "true")))
  end.

Definition optional_env_vars : list (pystr * (pystr * converter)) :=
  [(str "ORACLE_CONNECT_TIMEOUT", (str "connect_timeout", ToInt));
   (str "ORACLE_QUERY_TIMEOUT", (str "query_timeout", ToInt));
   (str "ORACLE_MAX_RETRIES", (str "max_retries", ToInt));
   (str "ORACLE_SECURITY_MODE", (str "security_mode", ToText));
   (str "ORACLE_ALLOWED_SCHEMAS", (str "allowed_schemas", ToNames));
   (str "ORACLE_ENABLE_QUERY_LOG", (str "enable_query_log", ToFlag));
   (str "ORACLE_MAX_RESULT_ROWS", (str "max_result_rows", ToInt));
   (str "ORACLE_ENCODING", (str "encoding", ToText))].

(** The loop over [optional_env_vars]. *)
Fixpoint read_optional (env : environment)
    (vars : list (pystr * (pystr * converter))) (data : config_data)
  : env_error + config_data :=
  match vars with
  | [] => inr data
  | (env_var, (field_name, type_converter)) :: vars' =>
      match env env_var with
      | None => read_optional env vars' data
      | Some value =>
          match convert type_converter value with
          | None => inl (BadFormat env_var)
          | Some v => read_optional env vars' (data_set data field_name v)
          end
      end
  end.

(** [if text:] for the result of [os.getenv]. *)
Definition is_set (text : option pystr) : bool :=
  match text with
  | Some (_ :: _) => true
  | _ => false
  end.

(** [from_env] up to the call of the model's constructor: the keyword
    arguments it has collected, or the ValueError it raised. *)
Definition from_env_data (env : environment) : env_error + config_data :=
  match read_required env required_env_vars [] [] with
  | inl e => inl e
  | inr (data, missing_vars) =>
      match missing_vars with
      | _ :: _ => inl (MissingVariables missing_vars)
      | [] =>
          match env (str "ORACLE_SERVICE_NAME"), env (str "ORACLE_SID") with
          | Some (c :: service_name), _ =>
              read_optional env optional_env_vars
                (data_set data (str "service_name")
                   (SText (c :: service_name)))
          | _, Some (c :: sid) =>
              read_optional env optional_env_vars
                (data_set data (str "sid") (SText (c :: sid)))
          | _, _ => inl NoServiceNameOrSid
          end
      end
  end.

(** The variables of a list that [os.getenv] does not find. *)
Definition unset (env : environment) (names : list pystr) : list pystr :=
  filter (fun name => match env name with None => true | Some _ => false end)
    names.

(** Stand-ins for the two builtins: no case outside Basic Latin, and an
    [int] that reads a run of decimal digits. *)
Fixpoint digits_value (acc : Z) (s : pystr) : option Z :=
  match s with
  | [] => Some acc
  | c :: s' =>
      if between 48 57 c
      then digits_value (10 * acc + Z.of_N (c - 48))%Z s'
      else None
  end.

Definition plain : python_builtins :=
  {| lower_nonascii := fun c => [c];
     py_int := fun s => match s with [] => None | _ => digits_value 0 s end |}.

(** An environment given by the list of its variables. *)
Fixpoint env_of (vars : list (pystr * pystr)) : environment :=
  fun name =>
    match vars with
    | [] => None
    | (k, v) :: vars' => if str_eqb k name then Some v else env_of vars' name
    end.

Definition env_without_secrets : environment :=
  env_of [(str "ORACLE_HOST", str "db.example.org");
          (str "ORACLE_PORT", str "1521");
          (str "ORACLE_SID", str "XE")].

Definition env_with_both : environment :=
  env_of [(str "ORACLE_HOST", str "db.example.org");
          (str "ORACLE_PORT", str "1521");
          (str "ORACLE_USERNAME", str "scott");
          (str "ORACLE_PASSWORD", str "tiger");
          (str "ORACLE_SERVICE_NAME", str "ORCL");
          (str "ORACLE_SID", str "XE");
          (str "ORACLE_ALLOWED_SCHEMAS", str "HR, FINANCE")].




(** ** Strings and membership *)

Lemma str_eqb_eq (a b : pystr) : str_eqb a b = true <-> a = b.
Proof.
  revert b; induction a as [|x a IH]; intros [|y b]; simpl;
    try (split; [discriminate | discriminate]); try tauto.
  rewrite andb_true_iff, N.eqb_eq, IH.
  split; [intros [-> ->]; reflexivity | intros H; inversion H; auto].
Qed.

Lemma str_in_In (w : pystr) (l : list pystr) : str_in w l = true <-> In w l.
Proof.
  unfold str_in. rewrite existsb_exists. split.
  - intros [x [Hin Heq]]. apply str_eqb_eq in Heq. now subst.
  - intros Hin. exists w. split; [assumption | now apply str_eqb_eq].
Qed.

Lemma existsb_false_iff {A : Type} (f : A -> bool) (l : list A) :
  existsb f l = false <-> forall x, In x l -> f x = false.
Proof.
  induction l as [|a l IH]; simpl.
  - split; [intros _ x [] | reflexivity].
  - rewrite orb_false_iff, IH. split.
    + intros [Ha Hl] x [<- | Hx]; auto.
    + intros H. split; [apply H; now left | intros x Hx; apply H; now right].
Qed.

Lemma negb_existsb_true {A : Type} (f : A -> bool) (l : list A) :
  negb (existsb f l) = true <-> forall x, In x l -> f x = false.
Proof. rewrite negb_true_iff. apply existsb_false_iff. Qed.

(** ** The matcher finds exactly the occurrences of a pattern *)

Lemma match_literal_app (w : pystr) :
  forall prev rest,
    match_literal w prev (w ++ rest) = Some (last_seen w prev, rest).
Proof.
  induction w as [|a w IH]; intros prev rest; simpl; [reflexivity |].
  now rewrite N.eqb_refl, IH.
Qed.

Lemma match_literal_sound (w : pystr) :
  forall prev s p rest,
    match_literal w prev s = Some (p, rest) ->
    s = w ++ rest /\ p = last_seen w prev.
Proof.
  induction w as [|a w IH]; intros prev s p rest; simpl.
  - intros H. injection H as <- <-. auto.
  - destruct s as [|c s]; [discriminate |].
    destruct (a =? c) eqn:E; [| discriminate].
    apply N.eqb_eq in E. subst c. intros H.
    destruct (IH _ _ _ _ H) as [-> ->]. auto.
Qed.

Lemma one_or_more_spec (cls : codepoint -> bool)
    (k : option codepoint -> pystr -> bool) (s : pystr) :
  one_or_more cls k s = true <->
  exists c run rest,
    s = c :: run ++ rest
    /\ forallb cls (c :: run) = true
    /\ k (last_seen (c :: run) None) rest = true.
Proof.
  induction s as [|a s IH]; simpl.
  - split; [discriminate | intros (c & run & rest & H & _); discriminate].
  - rewrite andb_true_iff, orb_true_iff, IH. split.
    + intros [Ha [(c & run & rest & -> & Hcls & Hk) | Hk]].
      * exists a, (c :: run), rest. repeat split; auto.
        cbn [forallb]. now rewrite Ha.
      * exists a, [], s. simpl. rewrite Ha. auto.
    + intros (c & run & rest & E & Hcls & Hk).
      injection E as <- ->. cbn [forallb] in Hcls.
      apply andb_true_iff in Hcls. destruct Hcls as [Ha Hrun].
      split; [exact Ha |].
      destruct run as [|c' run]; [right; exact Hk | left].
      exists c', run, rest. auto.
Qed.

Lemma match_here_spec (r : regex) :
  forall prev s, match_here r prev s = true <-> matches r prev s.
Proof.
  induction r as [|a r IH]; intros prev s.
  - split; [constructor | reflexivity].
  - destruct a as [| w | |]; cbn [match_here].
    + rewrite andb_true_iff, IH. split.
      * intros [Hb Hm]. now constructor.
      * intros H. inversion H; subst. auto.
    + split.
      * destruct (match_literal w prev s) as [[p rest] |] eqn:E;
          [| discriminate].
        apply match_literal_sound in E. destruct E as [-> ->].
        intros H. constructor. now apply IH.
      * intros H. inversion H; subst.
        rewrite match_literal_app. now apply IH.
    + rewrite one_or_more_spec. split.
      * intros (c & run & rest & -> & Hcls & Hk).
        constructor; [exact Hcls | apply IH; exact Hk].
      * intros H. inversion H; subst.
        exists c, run, rest. repeat split; auto. now apply IH.
    + rewrite one_or_more_spec. split.
      * intros (c & run & rest & -> & Hcls & Hk).
        constructor; [exact Hcls | apply IH; exact Hk].
      * intros H. inversion H; subst.
        exists c, run, rest. repeat split; auto. now apply IH.
Qed.

Lemma search_from_spec (r : regex) (s : pystr) :
  forall prev,
    search_from r prev s = true <->
    exists before after,
      s = before ++ after /\ matches r (last_seen before prev) after.
Proof.
  induction s as [|c s IH]; intros prev; cbn [search_from];
    rewrite orb_true_iff, match_here_spec.
  - split.
    + intros [H | H]; [| discriminate]. now exists [], [].
    + intros (b & a & E & H). left.
      symmetry in E. apply app_eq_nil in E. destruct E as [-> ->]. exact H.
  - rewrite IH. split.
    + intros [H | (b & a & -> & H)].
      * now exists [], (c :: s).
      * now exists (c :: b), a.
    + intros (b & a & E & H). destruct b as [|x b].
      * left. simpl in E. subst a. exact H.
      * right. injection E as <- ->. now exists b, a.
Qed.

(** [re_search] answers [true] exactly when the pattern occurs. *)
Lemma re_search_spec (r : regex) (s : pystr) :
  re_search r s = true <-> occurs r s.
Proof. apply search_from_spec. Qed.

(** ** The limited-write tier *)

Lemma validate_limited_write_iff (first_keyword text : pystr) :
  _validate_limited_write first_keyword text = true <->
  In first_keyword (READONLY_OPERATIONS ++ WRITE_OPERATIONS) /\
  (forall d, In d DANGEROUS_OPERATIONS -> contains text d = false).
Proof.
  unfold _validate_limited_write.
  destruct (str_in first_keyword (READONLY_OPERATIONS ++ WRITE_OPERATIONS))
    eqn:Hk; cbn [negb].
  - rewrite negb_existsb_true. apply str_in_In in Hk. tauto.
  - split; [discriminate | intros [Hin _]].
    apply str_in_In in Hin. congruence.
Qed.

(** C1, as the code has it: under the limited-write tier a statement is
    permitted exactly when its leading keyword is a read-only or a write
    keyword and no dangerous keyword occurs in the upper-cased text as a
    substring.  [INSERT INTO t VALUES (1)] is permitted, [DROP TABLE t] is
    denied, and a statement led by [MERGE] is permitted exactly when no
    dangerous keyword occurs in it as a substring. *)
Theorem limited_write_policy :
  (forall sql,
      validate_sql sql LIMITED_WRITE = true <->
      In (leading_keyword sql) (READONLY_OPERATIONS ++ WRITE_OPERATIONS) /\
      (forall d, In d DANGEROUS_OPERATIONS ->
                 contains (sql_upper sql) d = false))
  /\ validate_sql (str "INSERT INTO t VALUES (1)") LIMITED_WRITE = true
  /\ validate_sql (str "DROP TABLE t") LIMITED_WRITE = false
  /\ (forall sql,
        leading_keyword sql = str "MERGE" ->
        (validate_sql sql LIMITED_WRITE = true <->
         forall d, In d DANGEROUS_OPERATIONS ->
                   contains (sql_upper sql) d = false)).
Proof.
  split; [| split; [| split]].
  - intros sql. apply validate_limited_write_iff.
  - reflexivity.
  - reflexivity.
  - intros sql Hk. unfold validate_sql.
    rewrite validate_limited_write_iff.
    fold (sql_upper sql). fold (leading_keyword sql). rewrite Hk.
    split; [tauto | intros H; split; [| exact H]].
    simpl. tauto.
Qed.

(** ** The read-only tier *)

Lemma validate_readonly_iff (first_keyword text : pystr) :
  _validate_readonly first_keyword text = true <->
  In first_keyword READONLY_OPERATIONS /\
  (first_keyword = str "SELECT" ->
   forall pattern, In pattern dangerous_patterns ->
                   re_search pattern text = false) /\
  (first_keyword <> str "SELECT" ->
   forall w, In w (WRITE_OPERATIONS ++ DANGEROUS_OPERATIONS) ->
             contains text w = false).
Proof.
  unfold _validate_readonly.
  destruct (str_in first_keyword READONLY_OPERATIONS) eqn:Hk; cbn [negb].
  - apply str_in_In in Hk.
    destruct (str_eqb first_keyword (str "SELECT")) eqn:Hs.
    + apply str_eqb_eq in Hs. rewrite negb_existsb_true.
      split; [intros H; repeat split; auto; intros Hne; contradiction |].
      intros (_ & H & _). auto.
    + assert (Hne : first_keyword <> str "SELECT").
      { intros Heq. apply str_eqb_eq in Heq. congruence. }
      rewrite negb_existsb_true.
      split; [intros H; repeat split; auto; intros Heq; contradiction |].
      intros (_ & _ & H). auto.
  - split; [discriminate | intros (Hin & _)].
    apply str_in_In in Hin. congruence.
Qed.

(** C2: under the read-only tier a statement is permitted only if its
    leading keyword is one of SELECT, WITH, DESC, DESCRIBE, EXPLAIN; a
    statement led by SELECT is denied as soon as one of the eight dangerous
    sub-clause patterns is found in the upper-cased text; and the three
    statements of the specification are decided as it says. *)
Theorem readonly_policy :
  (forall sql,
      validate_sql sql READONLY = true ->
      In (leading_keyword sql) READONLY_OPERATIONS)
  /\ (forall sql pattern,
        leading_keyword sql = str "SELECT" ->
        In pattern dangerous_patterns ->
        occurs pattern (sql_upper sql) ->
        validate_sql sql READONLY = false)
  /\ validate_sql (str "SELECT 1 FROM DUAL") READONLY = true
  /\ validate_sql (str "DELETE FROM t") READONLY = false
  /\ validate_sql
       (str "SELECT * FROM t WHERE x IN (SELECT 1 FROM DUAL); DROP TABLE t")
       READONLY = false.
Proof.
  split; [| split; [| repeat split; reflexivity]].
  - intros sql H. apply validate_readonly_iff in H. tauto.
  - intros sql pattern Hk Hin Hm. apply re_search_spec in Hm.
    destruct (validate_sql sql READONLY) eqn:Hv; [| reflexivity].
    apply validate_readonly_iff in Hv. destruct Hv as (_ & Hsel & _).
    fold (sql_upper sql) in Hsel. fold (leading_keyword sql) in Hsel.
    rewrite (Hsel Hk pattern Hin) in Hm. discriminate.
Qed.

(** X1: A statement led by SELECT is permitted exactly when none of the
    patterns is found. *)
Lemma readonly_select_iff (sql : pystr) :
  leading_keyword sql = str "SELECT" ->
  (validate_sql sql READONLY = true <->
   forall pattern, In pattern dangerous_patterns ->
                   re_search pattern (sql_upper sql) = false).
Proof.
  intros Hk. unfold validate_sql. rewrite validate_readonly_iff.
  fold (sql_upper sql). fold (leading_keyword sql). rewrite Hk.
  split; [tauto | intros H; repeat split; auto].
  - simpl. tauto.
  - intros Hne. now contradiction Hne.
Qed.

(** ** Tokens are substrings *)

Lemma startswith_app (w rest : pystr) : startswith (w ++ rest) w = true.
Proof.
  induction w as [|a w IH]; simpl; [reflexivity |].
  now rewrite N.eqb_refl, IH.
Qed.

Lemma startswith_contains (hay w : pystr) :
  startswith hay w = true -> contains hay w = true.
Proof. intros H. destruct hay; simpl; now rewrite H. Qed.

Lemma contains_app (before w rest : pystr) :
  contains (before ++ w ++ rest) w = true.
Proof.
  induction before as [|a before IH].
  - cbn [app]. apply startswith_contains, startswith_app.
  - cbn [app contains]. rewrite IH. apply orb_true_r.
Qed.

Lemma split_from_infix (s cur w : pystr) :
  In w (split_from cur s) ->
  exists before rest, rev cur ++ s = before ++ w ++ rest.
Proof.
  revert cur; induction s as [|c s IH]; intros cur Hin; simpl in Hin.
  - destruct cur as [|x cur]; [contradiction |].
    destruct Hin as [<- | []]. exists [], []. now rewrite !app_nil_r.
  - destruct (isspace c).
    + destruct cur as [|x cur].
      * destruct (IH [] Hin) as (b & r & E). simpl in E.
        exists (c :: b), r. simpl. now rewrite E.
      * destruct Hin as [<- | Hin].
        { exists [], (c :: s). reflexivity. }
        destruct (IH [] Hin) as (b & r & E). simpl in E.
        exists (rev (x :: cur) ++ c :: b), r.
        rewrite E, <- app_assoc. reflexivity.
    + destruct (IH (c :: cur) Hin) as (b & r & E).
      exists b, r. rewrite <- E. simpl. now rewrite <- app_assoc.
Qed.

Lemma token_is_substring (keyword text : pystr) :
  appears_as_token keyword text = true -> contains text keyword = true.
Proof.
  unfold appears_as_token, split. intros H. apply str_in_In in H.
  apply split_from_infix in H. destruct H as (b & r & E).
  simpl in E. rewrite E. apply contains_app.
Qed.

(** C5, as the code has it: under the read-only tier a statement whose
    leading keyword is WITH, DESC, DESCRIBE or EXPLAIN is rejected exactly
    when some write or dangerous keyword occurs in the upper-cased text as
    a substring; a keyword that appears as a token is one such case. *)
Theorem readonly_other_keywords (sql : pystr) :
  In (leading_keyword sql)
     [str "WITH"; str "DESC"; str "DESCRIBE"; str "EXPLAIN"] ->
  (validate_sql sql READONLY = false <->
   exists w, In w (WRITE_OPERATIONS ++ DANGEROUS_OPERATIONS) /\
             contains (sql_upper sql) w = true)
  /\ (forall w, In w (WRITE_OPERATIONS ++ DANGEROUS_OPERATIONS) ->
                appears_as_token w (sql_upper sql) = true ->
                validate_sql sql READONLY = false).
Proof.
  intros Hk.
  assert (Hro : In (leading_keyword sql) READONLY_OPERATIONS).
  { simpl in Hk |- *. tauto. }
  assert (Hne : leading_keyword sql <> str "SELECT").
  { intros E. rewrite E in Hk. simpl in Hk.
    repeat destruct Hk as [Hk | Hk]; try discriminate; contradiction. }
  assert (Hiff : validate_sql sql READONLY = false <->
                 exists w, In w (WRITE_OPERATIONS ++ DANGEROUS_OPERATIONS) /\
                           contains (sql_upper sql) w = true).
  { split.
    - intros Hv.
      destruct (existsb (fun w => contains (sql_upper sql) w)
                  (WRITE_OPERATIONS ++ DANGEROUS_OPERATIONS)) eqn:Hex.
      + apply existsb_exists in Hex. exact Hex.
      + exfalso. rewrite existsb_false_iff in Hex.
        assert (Ht : validate_sql sql READONLY = true).
        { apply validate_readonly_iff. repeat split; auto.
          intros E. contradiction. }
        congruence.
    - intros (w & Hw & Hc).
      destruct (validate_sql sql READONLY) eqn:Hv; [| reflexivity].
      apply validate_readonly_iff in Hv. destruct Hv as (_ & _ & H).
      fold (sql_upper sql) in H. fold (leading_keyword sql) in H.
      rewrite (H Hne w Hw) in Hc. discriminate. }
  split; [exact Hiff |].
  intros w Hw Ht. apply Hiff. exists w. split; [assumption |].
  now apply token_is_substring.
Qed.

(** ** Blank statements *)

Ltac bool_arith H :=
  repeat (rewrite ?orb_true_iff, ?andb_true_iff, ?orb_false_iff,
            ?andb_false_iff, ?N.leb_le, ?N.leb_gt, ?N.eqb_eq, ?N.eqb_neq,
            ?N.ltb_lt, ?N.ltb_ge in H).

Ltac bool_arith_goal :=
  repeat (rewrite ?orb_true_iff, ?andb_true_iff, ?orb_false_iff,
            ?andb_false_iff, ?N.leb_le, ?N.leb_gt, ?N.eqb_eq, ?N.eqb_neq,
            ?N.ltb_lt, ?N.ltb_ge).

Lemma upper_char_space (c : codepoint) :
  upper_keeps_space -> isspace c = true ->
  forallb isspace (upper_char c) = true.
Proof.
  intros Hup Hc. unfold upper_char.
  destruct (is_ascii c) eqn:Ha; [| now apply Hup].
  destruct (between 97 122 c) eqn:Hb.
  - exfalso. unfold isspace, between, is_ascii in *.
    bool_arith Hc. bool_arith Hb. bool_arith Ha. lia.
  - simpl. now rewrite Hc.
Qed.

Lemma upper_blank (s : pystr) :
  upper_keeps_space -> forallb isspace s = true ->
  forallb isspace (upper s) = true.
Proof.
  intros Hup. induction s as [|c s IH]; simpl; [reflexivity |].
  rewrite andb_true_iff. intros [Hc Hs].
  rewrite forallb_app, (upper_char_space c Hup Hc). now apply IH.
Qed.

Lemma lstrip_blank (s : pystr) : forallb isspace s = true -> lstrip s = [].
Proof.
  induction s as [|c s IH]; simpl; [reflexivity |].
  rewrite andb_true_iff. intros [-> Hs]. now apply IH.
Qed.

(** C10: the empty string and every string of white space only have the
    empty leading keyword, which is in none of the three keyword sets, and
    are denied under the read-only and the limited-write tier. *)
Theorem blank_statement_denied (sql : pystr) :
  upper_keeps_space ->
  forallb isspace sql = true ->
  leading_keyword sql = []
  /\ ~ In [] READONLY_OPERATIONS
  /\ ~ In [] WRITE_OPERATIONS
  /\ ~ In [] DANGEROUS_OPERATIONS
  /\ validate_sql sql READONLY = false
  /\ validate_sql sql LIMITED_WRITE = false.
Proof.
  intros Hup Hs.
  assert (Hu : sql_upper sql = []).
  { unfold sql_upper, strip. now rewrite (lstrip_blank _ (upper_blank sql Hup Hs)). }
  assert (Hk : leading_keyword sql = []).
  { unfold leading_keyword. now rewrite Hu. }
  split; [exact Hk |].
  repeat split.
  - simpl. intros H. repeat destruct H as [H | H]; try discriminate; contradiction.
  - simpl. intros H. repeat destruct H as [H | H]; try discriminate; contradiction.
  - simpl. intros H. repeat destruct H as [H | H]; try discriminate; contradiction.
  - unfold validate_sql. fold (sql_upper sql). fold (leading_keyword sql).
    now rewrite Hk, Hu.
  - unfold validate_sql. fold (sql_upper sql). fold (leading_keyword sql).
    now rewrite Hk, Hu.
Qed.

(** ** The leading keyword is the upper-cased first word *)

Lemma upper_char_respects (c : codepoint) :
  upper_respects_space ->
  upper_char c <> []
  /\ forallb (fun x => Bool.eqb (isspace x) (isspace c)) (upper_char c) = true.
Proof.
  intros Hup. unfold upper_char.
  destruct (is_ascii c) eqn:Ha; [| apply Hup].
  split; [discriminate |]. cbn [forallb]. rewrite andb_true_r.
  destruct (between 97 122 c) eqn:Hb; [| apply eqb_reflx].
  unfold between in Hb. bool_arith Hb.
  assert (Hc : isspace c = false).
  { unfold isspace, between. bool_arith_goal. lia. }
  assert (Hu : isspace (c - 32) = false).
  { unfold isspace, between. bool_arith_goal. lia. }
  now rewrite Hc, Hu.
Qed.

Lemma split_from_spaces (w t cur : pystr) :
  w <> [] -> forallb isspace w = true ->
  split_from cur (w ++ t)
  = match cur with
    | [] => split_from [] t
    | _ => rev cur :: split_from [] t
    end.
Proof.
  revert cur. induction w as [|c w IH]; intros cur Hne Hw; [contradiction |].
  cbn [forallb] in Hw. apply andb_true_iff in Hw. destruct Hw as [Hc Hw].
  cbn [app split_from]. rewrite Hc.
  destruct w as [|c' w]; [reflexivity |].
  destruct cur; rewrite (IH [] ltac:(discriminate) Hw); reflexivity.
Qed.

Lemma split_from_letters (w t cur : pystr) :
  forallb (fun x => negb (isspace x)) w = true ->
  split_from cur (w ++ t) = split_from (rev w ++ cur) t.
Proof.
  revert cur. induction w as [|c w IH]; intros cur Hw; [reflexivity |].
  cbn [forallb] in Hw. apply andb_true_iff in Hw. destruct Hw as [Hc Hw].
  apply negb_true_iff in Hc. cbn [app split_from rev]. rewrite Hc.
  now rewrite IH, <- app_assoc.
Qed.

Lemma upper_app (a b : pystr) : upper (a ++ b) = upper a ++ upper b.
Proof. apply flat_map_app. Qed.

Lemma split_from_upper (s : pystr) :
  upper_respects_space ->
  forall cur acc,
    rev acc = upper (rev cur) ->
    split_from acc (upper s) = map upper (split_from cur s).
Proof.
  intros Hup. induction s as [|c s IH]; intros cur acc Hacc.
  - cbn [upper flat_map split_from].
    destruct cur as [|x cur].
    + simpl in Hacc. destruct acc; [reflexivity |].
      apply (f_equal (@length _)) in Hacc. rewrite length_rev in Hacc.
      discriminate.
    + destruct acc as [|y acc].
      * exfalso. cbn [rev] in Hacc. rewrite upper_app in Hacc.
        destruct (upper_char_respects x Hup) as [Hne _].
        cbn [upper flat_map] in Hacc. rewrite app_nil_r in Hacc.
        destruct (upper_char x); [contradiction |].
        symmetry in Hacc. apply app_eq_nil in Hacc. destruct Hacc; discriminate.
      * cbn [map]. now rewrite Hacc.
  - change (upper (c :: s)) with (upper_char c ++ upper s).
    destruct (upper_char_respects c Hup) as [Hne Hsp].
    cbn [split_from]. destruct (isspace c) eqn:Hc.
    + rewrite split_from_spaces; [| exact Hne |].
      2:{ rewrite forallb_forall in *. intros x Hx.
          apply Hsp in Hx. now apply eqb_prop in Hx. }
      destruct cur as [|x cur].
      * simpl in Hacc. destruct acc.
        -- apply IH. reflexivity.
        -- apply (f_equal (@length _)) in Hacc. rewrite length_rev in Hacc.
           discriminate.
      * destruct acc as [|y acc].
        -- exfalso. cbn [rev] in Hacc. rewrite upper_app in Hacc.
           destruct (upper_char_respects x Hup) as [Hx _].
           cbn [upper flat_map] in Hacc. rewrite app_nil_r in Hacc.
           destruct (upper_char x); [contradiction |].
           symmetry in Hacc. apply app_eq_nil in Hacc.
           destruct Hacc; discriminate.
        -- cbn [map]. rewrite Hacc. f_equal. apply IH. reflexivity.
    + rewrite split_from_letters.
      2:{ rewrite forallb_forall in *. intros x Hx.
          apply Hsp in Hx. apply eqb_prop in Hx. now rewrite Hx. }
      apply IH. rewrite rev_app_distr, rev_involutive, Hacc.
      cbn [rev]. rewrite upper_app. cbn [upper flat_map].
      now rewrite app_nil_r.
Qed.

Lemma split_lstrip (s : pystr) : split (lstrip s) = split s.
Proof.
  unfold split. induction s as [|c s IH]; [reflexivity |].
  cbn [lstrip split_from]. destruct (isspace c) eqn:Hc; [exact IH |].
  cbn [split_from]. now rewrite Hc.
Qed.

Lemma rstrip_nil (s : pystr) : rstrip s = [] -> forallb isspace s = true.
Proof.
  induction s as [|c s IH]; [reflexivity |]. cbn [rstrip forallb].
  destruct (rstrip s); [| discriminate].
  destruct (isspace c); [intros _; now apply IH | discriminate].
Qed.

Lemma split_from_blank (s cur : pystr) :
  forallb isspace s = true ->
  split_from cur s = match cur with [] => [] | _ => [rev cur] end.
Proof.
  revert cur. induction s as [|c s IH]; intros cur Hs; [reflexivity |].
  cbn [forallb] in Hs. apply andb_true_iff in Hs. destruct Hs as [Hc Hs].
  cbn [split_from]. rewrite Hc, (IH [] Hs). now destruct cur.
Qed.

Lemma split_from_cons (cur : pystr) (c : codepoint) (s : pystr) :
  split_from cur (c :: s)
  = if isspace c
    then match cur with
         | [] => split_from [] s
         | _ => rev cur :: split_from [] s
         end
    else split_from (c :: cur) s.
Proof. reflexivity. Qed.

Lemma split_from_rstrip (s : pystr) :
  forall cur, split_from cur (rstrip s) = split_from cur s.
Proof.
  induction s as [|c s IH]; intros cur; [reflexivity |].
  cbn [rstrip]. destruct (rstrip s) as [|x r] eqn:Hr.
  - pose proof (rstrip_nil s Hr) as Hs.
    destruct (isspace c) eqn:Hc; cbn [split_from]; rewrite Hc.
    + rewrite (split_from_blank s [] Hs). now destruct cur.
    + now rewrite (split_from_blank s (c :: cur) Hs).
  - rewrite (split_from_cons cur c (x :: r)), (split_from_cons cur c s).
    destruct (isspace c); [| apply IH].
    destruct cur; now rewrite IH.
Qed.

Lemma split_strip (s : pystr) : split (strip s) = split s.
Proof.
  unfold strip. unfold split at 1. rewrite split_from_rstrip.
  apply split_lstrip.
Qed.

(** X3: The keyword that [validate_sql] extracts is the first white-space
    delimited word of the statement, upper-cased. *)
Lemma leading_keyword_first_word (sql : pystr) :
  upper_respects_space ->
  leading_keyword sql = upper (_extract_first_keyword sql).
Proof.
  intros Hup. unfold leading_keyword, sql_upper, _extract_first_keyword.
  rewrite split_strip. unfold split.
  rewrite (split_from_upper sql Hup [] [] eq_refl).
  now destruct (split_from [] sql).
Qed.

(** ** The leading keyword is a prefix of the text *)

Lemma split_from_run (s cur w : pystr) (ws : list pystr) :
  split_from cur s = w :: ws -> cur <> [] ->
  exists rest, rev cur ++ s = w ++ rest.
Proof.
  revert cur; induction s as [|c s IH]; intros cur H Hne; simpl in H.
  - destruct cur as [|x cur]; [contradiction |].
    injection H as <- _. exists []. reflexivity.
  - destruct (isspace c).
    + destruct cur as [|x cur]; [contradiction |].
      injection H as <- _. exists (c :: s). reflexivity.
    + destruct (IH (c :: cur) H) as (rest & E); [discriminate |].
      exists rest. rewrite <- E. simpl. now rewrite <- app_assoc.
Qed.

Lemma split_head_lstrip (s w : pystr) (ws : list pystr) :
  split s = w :: ws -> exists rest, lstrip s = w ++ rest.
Proof.
  unfold split. induction s as [|c s IH]; simpl; [discriminate |].
  destruct (isspace c); [exact IH |].
  intros H. apply split_from_run in H; [exact H | discriminate].
Qed.

Lemma lstrip_head (s : pystr) :
  lstrip s = [] \/ exists c v, lstrip s = c :: v /\ isspace c = false.
Proof.
  induction s as [|c s IH]; simpl; [now left |].
  destruct (isspace c) eqn:Hc; [exact IH |].
  right. now exists c, s.
Qed.

Lemma lstrip_strip (s : pystr) : lstrip (strip s) = strip s.
Proof.
  unfold strip. destruct (lstrip_head s) as [-> | (c & v & -> & Hc)];
    [reflexivity |].
  simpl. destruct (rstrip v); rewrite ?Hc; simpl; now rewrite ?Hc.
Qed.

Lemma leading_keyword_prefix (sql w : pystr) :
  leading_keyword sql = w -> w <> [] ->
  exists rest, sql_upper sql = w ++ rest.
Proof.
  unfold leading_keyword, _extract_first_keyword.
  destruct (split (sql_upper sql)) as [|w' ws] eqn:E.
  - intros <- Hne. contradiction.
  - intros -> _. apply split_head_lstrip in E.
    unfold sql_upper in *. now rewrite lstrip_strip in E.
Qed.

Lemma readonly_keyword_is_query (sql : pystr) :
  In (leading_keyword sql) READONLY_OPERATIONS -> is_query sql = true.
Proof.
  intros Hin.
  destruct (leading_keyword_prefix sql _ eq_refl) as (rest & E).
  { intros E. rewrite E in Hin. simpl in Hin.
    repeat destruct Hin as [Hin | Hin]; try discriminate; contradiction. }
  unfold is_query, startswith_any. fold (sql_upper sql). rewrite E.
  apply existsb_exists. exists (leading_keyword sql).
  split; [exact Hin | apply startswith_app].
Qed.

Lemma write_keyword_is_not_query (sql : pystr) :
  In (leading_keyword sql) WRITE_OPERATIONS -> is_query sql = false.
Proof.
  intros Hin.
  destruct (leading_keyword_prefix sql _ eq_refl) as (rest & E).
  { intros E. rewrite E in Hin. simpl in Hin.
    repeat destruct Hin as [Hin | Hin]; try discriminate; contradiction. }
  unfold is_query. fold (sql_upper sql). rewrite E.
  simpl in Hin.
  destruct Hin as [<- | [<- | [<- | []]]]; reflexivity.
Qed.

Lemma validated_keyword (sql : pystr) (mode : SecurityMode) :
  mode <> FULL_ACCESS -> validate_sql sql mode = true ->
  In (leading_keyword sql) (READONLY_OPERATIONS ++ WRITE_OPERATIONS).
Proof.
  intros Hm Hv. destruct mode; [| | contradiction].
  - apply validate_readonly_iff in Hv. apply in_or_app. tauto.
  - apply validate_limited_write_iff in Hv. tauto.
Qed.

(** ** Rows and the row cap *)

Lemma dict_set_fresh (d : record) (k : pystr) (v : value) :
  ~ In k (map fst d) -> dict_set d k v = d ++ [(k, v)].
Proof.
  induction d as [|[k' v'] d IH]; simpl; [reflexivity |].
  intros Hn. destruct (str_eqb k' k) eqn:E.
  - apply str_eqb_eq in E. tauto.
  - rewrite IH; tauto.
Qed.

Lemma nth_error_middle {A : Type} (pre rest : list A) (v : A) :
  nth_error (pre ++ v :: rest) (length pre) = Some v.
Proof. induction pre; simpl; auto. Qed.

Lemma row_dict_from_total (columns : list pystr) :
  forall (pre rest : list value) (d : record),
    (length columns <= length rest)%nat ->
    exists d', row_dict_from columns (pre ++ rest) (length pre) d = inr d'.
Proof.
  induction columns as [|k columns IH]; intros pre rest d Hlen; simpl.
  - now exists d.
  - destruct rest as [|v rest]; simpl in Hlen; [lia |].
    rewrite nth_error_middle.
    replace (pre ++ v :: rest) with ((pre ++ [v]) ++ rest)
      by now rewrite <- app_assoc.
    replace (S (length pre)) with (length (pre ++ [v]))
      by (rewrite length_app; simpl; lia).
    apply IH. lia.
Qed.

Lemma row_dict_from_combine (columns : list pystr) :
  forall (pre rest : list value) (d : record),
    NoDup columns ->
    (forall k, In k columns -> ~ In k (map fst d)) ->
    (length columns <= length rest)%nat ->
    row_dict_from columns (pre ++ rest) (length pre) d
    = inr (d ++ combine columns (map normalize rest)).
Proof.
  induction columns as [|k columns IH]; intros pre rest d Hnd Hfresh Hlen;
    simpl.
  - now rewrite app_nil_r.
  - destruct rest as [|v rest]; simpl in Hlen; [lia |].
    rewrite nth_error_middle.
    replace (pre ++ v :: rest) with ((pre ++ [v]) ++ rest)
      by now rewrite <- app_assoc.
    replace (S (length pre)) with (length (pre ++ [v]))
      by (rewrite length_app; simpl; lia).
    inversion Hnd as [|? ? Hk Hnd']; subst.
    rewrite dict_set_fresh by (apply Hfresh; now left).
    rewrite IH; [| assumption | | lia].
    + simpl. now rewrite <- app_assoc.
    + intros k' Hk'. rewrite map_app, in_app_iff. simpl.
      intros [Hd | [<- | []]]; [| contradiction].
      apply (Hfresh k'); [now right | assumption].
Qed.

(** With distinct column names a row becomes the list of its columns, in
    column order, each with its normalized value. *)
Lemma row_dict_combine (columns : list pystr) (row : list value) :
  NoDup columns -> (length columns <= length row)%nat ->
  row_dict columns row = inr (combine columns (map normalize row)).
Proof.
  intros Hnd Hlen. unfold row_dict.
  apply (row_dict_from_combine columns [] row []); auto.
Qed.

Lemma build_results_total (columns : list pystr) (rows : list (list value)) :
  Forall (fun row => (length columns <= length row)%nat) rows ->
  exists all,
    build_results columns rows = inr all
    /\ Forall2 (fun row d => row_dict columns row = inr d) rows all.
Proof.
  induction 1 as [|row rows Hrow _ IH]; simpl.
  - exists []. split; [reflexivity | constructor].
  - destruct (row_dict_from_total columns [] row [] Hrow) as (d & Hd).
    simpl in Hd. unfold row_dict at 1. rewrite Hd.
    destruct IH as (all & -> & Hall). exists (d :: all).
    split; [reflexivity | now constructor].
Qed.

Lemma Forall2_firstn (A B : Type) (P : A -> B -> Prop) (n : nat) :
  forall l l', Forall2 P l l' -> Forall2 P (firstn n l) (firstn n l').
Proof.
  induction n as [|n IH]; intros l l' H; simpl; [constructor |].
  destruct H; constructor; auto.
Qed.

Lemma build_results_combine (columns : list pystr) (rows : list (list value)) :
  NoDup columns ->
  Forall (fun row => (length columns <= length row)%nat) rows ->
  build_results columns rows
  = inr (map (fun row => combine columns (map normalize row)) rows).
Proof.
  intros Hnd. induction 1 as [|row rows Hrow _ IH]; simpl; [reflexivity |].
  now rewrite row_dict_combine, IH.
Qed.

Lemma truncate_cap (config : OracleConfig) (results : list record) :
  (0 <= max_result_rows config)%Z ->
  truncate config results = firstn (Z.to_nat (max_result_rows config)) results.
Proof.
  intros Hn. unfold truncate, slice_to.
  destruct (max_result_rows config <? Z.of_nat (length results))%Z eqn:E.
  - now rewrite (proj2 (Z.leb_le _ _) Hn).
  - apply Z.ltb_ge in E. symmetry. apply firstn_all2. lia.
Qed.

(** ** The pipeline *)

Lemma run_statement_connects (config : OracleConfig) (db : oracle)
    (sql : pystr) (params : option (list value)) :
  reaches_database (run_statement config db sql params).
Proof.
  unfold reaches_database, run_statement, get_connection, bind, emit.
  simpl. now left.
Qed.

Lemma run_statement_ok (config : OracleConfig) (db : oracle) (sql : pystr)
    (params : option (list value)) (c : cursor) :
  session_opens config db = true ->
  execute db sql (params_or_empty params) = Returns c ->
  run_statement config db sql params
  = (session_events config
       ++ Execute sql (params_or_empty params)
            :: fst (fetch_or_commit config sql c)
       ++ [CloseCursor; CloseConnection],
     snd (fetch_or_commit config sql c)).
Proof.
  unfold session_opens, session_events, run_statement, get_connection.
  intros Hs He. apply andb_true_iff in Hs. destruct Hs as [Hc Hs].
  rewrite Hc, He.
  destruct (is_readonly_mode config).
  - destruct (execute db alter_session []); [discriminate |].
    destruct (fetch_or_commit config sql c) as [t [e | rs]];
      cbn; rewrite <- ?app_assoc; reflexivity.
  - destruct (fetch_or_commit config sql c) as [t [e | rs]];
      cbn; rewrite <- ?app_assoc; reflexivity.
Qed.

Lemma not_in_session_events (config : OracleConfig) (ev : event) :
  ev = Commit \/ ev = FetchAll -> ~ In ev (session_events config).
Proof.
  unfold session_events. intros Hev Hin.
  destruct (is_readonly_mode config); simpl in Hin;
    repeat destruct Hin as [Hin | Hin];
    destruct Hev; subst; try discriminate; try contradiction.
Qed.

(** C3, as the code has it: the forced read-only entry point checks the
    statement against the read-only policy and then, inside
    [execute_query], against the configured tier.  It reaches the database
    exactly when both checks pass, and then runs the statement; otherwise
    it raises before any driver call.  Under the read-only and full-access
    tiers this is exactly read-only validation. *)
Theorem forced_readonly_gate (config : OracleConfig) (db : oracle)
    (sql : pystr) (params : option (list value)) :
  (reaches_database (execute_safe_query config db sql params) <->
   validate_sql sql READONLY = true
   /\ validate_sql sql (security_mode config) = true)
  /\ (validate_sql sql READONLY = true ->
      validate_sql sql (security_mode config) = true ->
      execute_safe_query config db sql params
      = run_statement config db sql params)
  /\ (validate_sql sql READONLY = false ->
      execute_safe_query config db sql params = raise NotReadonly)
  /\ (validate_sql sql READONLY = true ->
      validate_sql sql (security_mode config) = false ->
      execute_safe_query config db sql params
      = raise (PolicyViolation (get_error_message sql (security_mode config))))
  /\ (security_mode config <> LIMITED_WRITE ->
      (reaches_database (execute_safe_query config db sql params) <->
       validate_sql sql READONLY = true)).
Proof.
  assert (Hgate :
    reaches_database (execute_safe_query config db sql params) <->
    validate_sql sql READONLY = true
    /\ validate_sql sql (security_mode config) = true).
  { unfold execute_safe_query, execute_query.
    destruct (validate_sql sql READONLY);
      destruct (validate_sql sql (security_mode config)); cbn [negb].
    - split; [auto | intros _; apply run_statement_connects].
    - split; [intros [] | intros [_ H]; discriminate].
    - split; [intros [] | intros [H _]; discriminate].
    - split; [intros [] | intros [H _]; discriminate]. }
  split; [exact Hgate |].
  split; [| split; [| split]].
  - unfold execute_safe_query, execute_query. intros -> ->. reflexivity.
  - unfold execute_safe_query. intros ->. reflexivity.
  - unfold execute_safe_query, execute_query. intros -> ->. reflexivity.
  - intros Hm. rewrite Hgate. split; [tauto |].
    intros Hr. split; [exact Hr |].
    destruct (security_mode config); [exact Hr | contradiction | reflexivity].
Qed.

(** C4, as the code has it: for a permitted statement that the driver
    executes, the read branch is taken exactly when the upper-cased,
    stripped text starts with SELECT, WITH, DESC, DESCRIBE or EXPLAIN.  It
    never commits and yields the rows built from the cursor, cut to the row
    cap; with distinct column names each record lists the columns in
    order with LOBs read and datetime values in ISO form.  Every other
    statement is committed and yields the one summary record.  A leading
    keyword of the read-only set always takes the read branch; under the
    read-only and limited-write tiers the converse holds too. *)
Theorem result_branch (config : OracleConfig) (db : oracle) (sql : pystr)
    (params : option (list value)) (c : cursor) :
  validate_sql sql (security_mode config) = true ->
  session_opens config db = true ->
  execute db sql (params_or_empty params) = Returns c ->
  (is_query sql = true ->
   ~ In Commit (fst (execute_query config db sql params))
   /\ snd (execute_query config db sql params)
      = match description c with
        | None => inl TypeError
        | Some columns =>
            match build_results columns (fetchall c) with
            | inl e => inl e
            | inr results => inr (truncate config results)
            end
        end
   /\ (forall columns,
          description c = Some columns -> NoDup columns ->
          Forall (fun row => (length columns <= length row)%nat)
            (fetchall c) ->
          execute_query config db sql params
          = (session_events config
               ++ [Execute sql (params_or_empty params); FetchAll;
                   CloseCursor; CloseConnection],
             inr (truncate config
                    (map (fun row => combine columns (map normalize row))
                       (fetchall c))))))
  /\ (is_query sql = false ->
      execute_query config db sql params
      = (session_events config
           ++ [Execute sql (params_or_empty params); Commit;
               CloseCursor; CloseConnection],
         inr [summary (rowcount c)]))
  /\ (In (leading_keyword sql) READONLY_OPERATIONS -> is_query sql = true)
  /\ (security_mode config <> FULL_ACCESS ->
      (is_query sql = true <-> In (leading_keyword sql) READONLY_OPERATIONS)).
Proof.
  intros Hv Hs He.
  assert (Hrun : execute_query config db sql params
                 = run_statement config db sql params).
  { unfold execute_query. now rewrite Hv. }
  rewrite Hrun, (run_statement_ok config db sql params c Hs He).
  unfold fetch_or_commit, column_names.
  split; [| split; [| split]].
  - intros Hq. rewrite Hq. split; [| split].
    + cbn [fst]. rewrite in_app_iff. intros [Hin | Hin].
      * revert Hin. apply not_in_session_events. now left.
      * destruct (description c) as [columns |]; cbn in Hin.
        -- destruct (build_results columns (fetchall c)); cbn in Hin;
             repeat destruct Hin as [Hin | Hin]; try discriminate;
             contradiction.
        -- repeat destruct Hin as [Hin | Hin]; try discriminate;
             contradiction.
    + destruct (description c) as [columns |]; cbn; [| reflexivity].
      destruct (build_results columns (fetchall c)); reflexivity.
    + intros columns Hd Hnd Hrows. rewrite Hd. cbn.
      rewrite (build_results_combine columns (fetchall c) Hnd Hrows). cbn. reflexivity.
  - intros Hq. rewrite Hq. reflexivity.
  - apply readonly_keyword_is_query.
  - intros Hm. split; [| apply readonly_keyword_is_query].
    intros Hq. destruct (in_app_or _ _ _ (validated_keyword sql _ Hm Hv))
      as [Hro | Hw]; [exact Hro |].
    rewrite (write_keyword_is_not_query sql Hw) in Hq. discriminate.
Qed.

(** C8, as the code has it: in the read branch, with a row cap [N >= 0]
    and [M] rows from the driver, the outcome is a value, not an error; its
    rows are the records of the first [N] driver rows, in driver order, and
    there are [min M N] of them. *)
Theorem row_cap (config : OracleConfig) (db : oracle) (sql : pystr)
    (params : option (list value)) (c : cursor) (columns : list pystr) :
  validate_sql sql (security_mode config) = true ->
  session_opens config db = true ->
  execute db sql (params_or_empty params) = Returns c ->
  is_query sql = true ->
  description c = Some columns ->
  Forall (fun row => (length columns <= length row)%nat) (fetchall c) ->
  (0 <= max_result_rows config)%Z ->
  exists rows,
    snd (execute_query config db sql params) = inr rows
    /\ Forall2 (fun row d => row_dict columns row = inr d)
         (firstn (Z.to_nat (max_result_rows config)) (fetchall c)) rows
    /\ Z.of_nat (length rows)
       = Z.min (Z.of_nat (length (fetchall c))) (max_result_rows config).
Proof.
  intros Hv Hs He Hq Hd Hrows Hn.
  destruct (build_results_total columns (fetchall c) Hrows)
    as (all & Hall & Hrec).
  exists (firstn (Z.to_nat (max_result_rows config)) all).
  split; [| split].
  - unfold execute_query. rewrite Hv. cbn [negb].
    rewrite (run_statement_ok config db sql params c Hs He).
    unfold fetch_or_commit, column_names. rewrite Hq, Hd. cbn.
    rewrite Hall. cbn. now rewrite truncate_cap.
  - now apply Forall2_firstn.
  - rewrite length_firstn, <- (Forall2_length Hrec). lia.
Qed.

(** ** The schema resolver *)

Lemma str_in_false (w : pystr) (l : list pystr) :
  str_in w l = false <-> ~ In w l.
Proof.
  rewrite <- str_in_In. destruct (str_in w l); split; congruence.
Qed.

Lemma str_in_map_upper (name : pystr) (names : list pystr) :
  str_in (upper name) (map upper names) = true <->
  exists s, In s names /\ upper s = upper name.
Proof.
  rewrite str_in_In, in_map_iff.
  split; intros (s & H1 & H2); exists s; auto.
Qed.

(** C6: with the wild card among the configured schemas every name is
    allowed and no driver call is made, whether or not the auto marker is
    there too; with neither marker a name is allowed exactly when its upper
    case equals the upper case of a configured name.  With the list [HR],
    [hr] is allowed and [FINANCE] is not. *)
Theorem schema_resolution (config : OracleConfig) (db : oracle)
    (schema : pystr) :
  (In (str "*") (allowed_schemas config) ->
   _is_schema_allowed config db schema = ret true)
  /\ (~ In (str "*") (allowed_schemas config) ->
      ~ In (str "auto") (allowed_schemas config) ->
      exists b,
        _is_schema_allowed config db schema = ret b
        /\ (b = true <->
            exists s, In s (allowed_schemas config)
                      /\ upper s = upper schema))
  /\ (forall mode cap,
        _is_schema_allowed (config_of mode [str "HR"] cap) db (str "hr")
        = ret true
        /\ _is_schema_allowed (config_of mode [str "HR"] cap) db
             (str "FINANCE")
           = ret false
        /\ _is_schema_allowed (config_of mode [str "auto"; str "*"] cap) db
             schema
           = ret true).
Proof.
  split; [| split].
  - intros Hall. unfold _is_schema_allowed, is_all_schemas_allowed.
    now rewrite (proj2 (str_in_In _ _) Hall).
  - intros Hall Hauto.
    unfold _is_schema_allowed, is_all_schemas_allowed,
      is_auto_discover_schemas.
    rewrite (proj2 (str_in_false _ _) Hall), (proj2 (str_in_false _ _) Hauto).
    eexists. split; [reflexivity |]. apply str_in_map_upper.
  - intros mode cap. repeat split; reflexivity.
Qed.

Lemma test_sql_valid (mode : SecurityMode) : validate_sql test_sql mode = true.
Proof. destruct mode; reflexivity. Qed.

Lemma run_statement_executes (config : OracleConfig) (db : oracle)
    (sql : pystr) (params : option (list value)) :
  session_opens config db = true ->
  In (Execute sql (params_or_empty params))
     (fst (run_statement config db sql params)).
Proof.
  intros Hs.
  destruct (execute db sql (params_or_empty params)) as [| c] eqn:He.
  - revert Hs. unfold session_opens, run_statement, get_connection.
    rewrite He. intros Hs. apply andb_true_iff in Hs. destruct Hs as [-> Hs].
    destruct (is_readonly_mode config).
    + destruct (execute db alter_session []); [discriminate |].
      cbn. right. right. right. now left.
    + cbn. right. now left.
  - rewrite (run_statement_ok config db sql params c Hs He). cbn [fst].
    apply in_or_app. right. now left.
Qed.

Lemma test_sql_is_query : is_query test_sql = true.
Proof. reflexivity. Qed.

Lemma probe_runs (config : OracleConfig) (db : oracle)
    (params : option (list value)) :
  execute_safe_query config db test_sql params
  = run_statement config db test_sql params.
Proof.
  unfold execute_safe_query, execute_query. now rewrite !test_sql_valid.
Qed.

Lemma is_schema_allowed_auto (config : OracleConfig) (db : oracle)
    (schema : pystr) :
  ~ In (str "*") (allowed_schemas config) ->
  In (str "auto") (allowed_schemas config) ->
  _is_schema_allowed config db schema
  = try_except
      (result <- execute_safe_query config db test_sql
                   (Some [VText (upper schema)]) ;;
       ret (0 <? length result)%nat)
      (fun _ => ret false).
Proof.
  intros Hall Hauto.
  unfold _is_schema_allowed, is_all_schemas_allowed, is_auto_discover_schemas.
  now rewrite (proj2 (str_in_false _ _) Hall), (proj2 (str_in_In _ _) Hauto).
Qed.

(** C7: in auto-discover mode the resolver sends the catalog probe, with
    the upper-cased name as its one parameter, through the forced read-only
    entry point; the probe passes both checks, so it reaches the database.
    The resolver always returns a value: [true] exactly when the probe
    returned at least one row, and [false] whenever the probe raised. *)
Theorem auto_discover_probe (config : OracleConfig) (db : oracle)
    (schema : pystr) :
  ~ In (str "*") (allowed_schemas config) ->
  In (str "auto") (allowed_schemas config) ->
  fst (_is_schema_allowed config db schema)
  = fst (execute_safe_query config db test_sql (Some [VText (upper schema)]))
  /\ (exists b,
        snd (_is_schema_allowed config db schema) = inr b
        /\ (b = true <->
            exists row rows,
              snd (execute_safe_query config db test_sql
                     (Some [VText (upper schema)]))
              = inr (row :: rows)))
  /\ (forall e,
        snd (execute_safe_query config db test_sql
               (Some [VText (upper schema)])) = inl e ->
        snd (_is_schema_allowed config db schema) = inr false)
  /\ execute_safe_query config db test_sql (Some [VText (upper schema)])
     = run_statement config db test_sql (Some [VText (upper schema)])
  /\ (session_opens config db = true ->
      In (Execute test_sql [VText (upper schema)])
         (fst (_is_schema_allowed config db schema))).
Proof.
  intros Hall Hauto.
  pose proof (probe_runs config db (Some [VText (upper schema)])) as Hprobe.
  rewrite (is_schema_allowed_auto config db schema Hall Hauto).
  assert (Hexec : session_opens config db = true ->
                  In (Execute test_sql [VText (upper schema)])
                     (fst (execute_safe_query config db test_sql
                             (Some [VText (upper schema)])))).
  { intros Hs. rewrite Hprobe.
    exact (run_statement_executes config db test_sql
             (Some [VText (upper schema)]) Hs). }
  destruct (execute_safe_query config db test_sql (Some [VText (upper schema)]))
    as [t [e | rows]]; cbn; rewrite !app_nil_r.
  - split; [reflexivity |].
    split; [| split; [reflexivity | split; [exact Hprobe | exact Hexec]]].
    exists false. split; [reflexivity |].
    split; [discriminate | intros (row & rows & H); discriminate].
  - split; [reflexivity |].
    split; [| split; [discriminate | split; [exact Hprobe | exact Hexec]]].
    exists (0 <? length rows)%nat. split; [reflexivity |].
    destruct rows as [| row rows]; cbn.
    + split; [discriminate | intros (r & rs & H); discriminate].
    + split; [intros _; now exists row, rows | reflexivity].
Qed.

(** X14: With a row cap of at least one, the resolver's answer is whether the
    driver found a row for the schema. *)
Lemma auto_discover_follows_driver (config : OracleConfig) (db : oracle)
    (schema : pystr) (c : cursor) (columns : list pystr) :
  ~ In (str "*") (allowed_schemas config) ->
  In (str "auto") (allowed_schemas config) ->
  session_opens config db = true ->
  execute db test_sql [VText (upper schema)] = Returns c ->
  description c = Some columns ->
  Forall (fun row => (length columns <= length row)%nat) (fetchall c) ->
  (1 <= max_result_rows config)%Z ->
  snd (_is_schema_allowed config db schema)
  = inr (0 <? length (fetchall c))%nat.
Proof.
  intros Hall Hauto Hs He Hd Hrows Hn.
  rewrite (is_schema_allowed_auto config db schema Hall Hauto), probe_runs.
  rewrite (run_statement_ok config db test_sql
             (Some [VText (upper schema)]) c Hs He).
  unfold fetch_or_commit, column_names.
  rewrite test_sql_is_query, Hd.
  destruct (build_results_total columns (fetchall c) Hrows)
    as (all & Hall' & Hrec).
  cbn. rewrite Hall'. cbn. rewrite truncate_cap by lia.
  f_equal. apply Forall2_length in Hrec. rewrite length_firstn, <- Hrec.
  destruct (Z.to_nat (max_result_rows config)) as [|cap] eqn:Hcap; [lia |].
  destruct (length (fetchall c)); reflexivity.
Qed.

Lemma normalize_plain (v : value) :
  match normalize v with
  | VLob _ | VDateTime _ => False
  | _ => True
  end.
Proof. destruct v; exact I. Qed.

(** ** Sample statements, whatever the Unicode tables *)

Example created_at_decisions :
  validate_sql created_at_query READONLY = true
  /\ validate_sql created_at_query LIMITED_WRITE = false
  /\ contains (sql_upper created_at_query) (str "CREATE") = true
  /\ split (sql_upper created_at_query)
     = [str "SELECT"; str "CREATED_AT"; str "FROM"; str "T"].
Proof. repeat split; reflexivity. Qed.

Example with_query_decisions :
  validate_sql with_query READONLY = false
  /\ leading_keyword with_query = str "WITH"
  /\ split (sql_upper with_query)
     = [str "WITH"; str "X"; str "AS"; str "(SELECT"; str "CREATED_AT";
        str "FROM"; str "LOG)"; str "SELECT"; str "*"; str "FROM"; str "X"].
Proof. repeat split; reflexivity. Qed.

Example select_star_decisions :
  is_query select_star_query = true
  /\ leading_keyword select_star_query = str "SELECT*FROM"
  /\ validate_sql select_star_query READONLY = false
  /\ validate_sql select_star_query FULL_ACCESS = true.
Proof. repeat split; reflexivity. Qed.

(** ** How the tiers relate *)

Lemma keyword_sets_disjoint (w : pystr) :
  (In w READONLY_OPERATIONS -> ~ In w WRITE_OPERATIONS)
  /\ (In w READONLY_OPERATIONS -> ~ In w DANGEROUS_OPERATIONS)
  /\ (In w WRITE_OPERATIONS -> ~ In w DANGEROUS_OPERATIONS).
Proof.
  repeat split; intros H1 H2; simpl in H1, H2;
    repeat destruct H1 as [<- | H1]; try contradiction;
    repeat destruct H2 as [H2 | H2]; try discriminate; contradiction.
Qed.

(** X4: A statement that the read-only tier permits is permitted by the
    limited-write tier exactly when no dangerous keyword is a substring of
    it, which is always so unless it is led by SELECT: the read-only check
    of the other keywords already forbids those substrings. *)
Theorem readonly_permit_carries_over (sql : pystr) :
  validate_sql sql READONLY = true ->
  (validate_sql sql LIMITED_WRITE = true <->
   forall d, In d DANGEROUS_OPERATIONS -> contains (sql_upper sql) d = false)
  /\ (leading_keyword sql <> str "SELECT" ->
      validate_sql sql LIMITED_WRITE = true).
Proof.
  intros Hro. apply validate_readonly_iff in Hro.
  fold (sql_upper sql) in Hro. fold (leading_keyword sql) in Hro.
  destruct Hro as (Hk & _ & Hother).
  assert (Hiff : validate_sql sql LIMITED_WRITE = true <->
                 forall d, In d DANGEROUS_OPERATIONS ->
                           contains (sql_upper sql) d = false).
  { unfold validate_sql. rewrite validate_limited_write_iff.
    fold (sql_upper sql). fold (leading_keyword sql).
    split; [tauto | intros H; split; [apply in_or_app; now left | exact H]]. }
  split; [exact Hiff |].
  intros Hne. apply Hiff. intros d Hd. apply (Hother Hne).
  apply in_or_app. now right.
Qed.

(** ** White space around a statement and the case of its letters *)

Lemma lstrip_app_blank (a t : pystr) :
  forallb isspace a = true -> lstrip (a ++ t) = lstrip t.
Proof.
  induction a as [|c a IH]; [reflexivity |]. cbn [forallb app lstrip].
  intros H. apply andb_true_iff in H. destruct H as [-> H]. now apply IH.
Qed.

Lemma rstrip_blank (b : pystr) : forallb isspace b = true -> rstrip b = [].
Proof.
  induction b as [|c b IH]; [reflexivity |]. cbn [forallb rstrip].
  intros H. apply andb_true_iff in H. destruct H as [-> H]. now rewrite IH.
Qed.

Lemma rstrip_app_blank (t b : pystr) :
  forallb isspace b = true -> rstrip (t ++ b) = rstrip t.
Proof.
  intros Hb. induction t as [|c t IH]; [now apply rstrip_blank |].
  cbn [app rstrip]. now rewrite IH.
Qed.

Lemma strip_padding (a t b : pystr) :
  forallb isspace a = true -> forallb isspace b = true ->
  strip (a ++ t ++ b) = strip t.
Proof.
  intros Ha Hb. unfold strip. rewrite (lstrip_app_blank a _ Ha).
  induction t as [|c t IH].
  - cbn [app lstrip]. now rewrite (lstrip_blank b Hb).
  - cbn [app lstrip]. destruct (isspace c); [exact IH |].
    exact (rstrip_app_blank (c :: t) b Hb).
Qed.

Lemma upper_char_fixed (c : codepoint) :
  upper_idempotent -> upper (upper_char c) = upper_char c.
Proof.
  intros Hid. unfold upper_char.
  destruct (is_ascii c) eqn:Ha; [| now apply Hid].
  cbn [upper flat_map]. rewrite app_nil_r. unfold upper_char.
  unfold is_ascii, between in *. bool_arith Ha.
  destruct ((97 <=? c) && (c <=? 122)) eqn:Hb.
  - bool_arith Hb.
    replace (c - 32 <? 128) with true by (symmetry; apply N.ltb_lt; lia).
    replace ((97 <=? c - 32) && (c - 32 <=? 122)) with false; [reflexivity |].
    symmetry. apply andb_false_iff. left. apply N.leb_gt. lia.
  - rewrite (proj2 (N.ltb_lt _ _) Ha), Hb. reflexivity.
Qed.

Lemma upper_upper (s : pystr) : upper_idempotent -> upper (upper s) = upper s.
Proof.
  intros Hid. induction s as [|c s IH]; [reflexivity |].
  change (upper (c :: s)) with (upper_char c ++ upper s).
  now rewrite upper_app, IH, upper_char_fixed.
Qed.

Lemma decisions_follow_text (a b : pystr) (mode : SecurityMode) :
  sql_upper a = sql_upper b ->
  validate_sql a mode = validate_sql b mode
  /\ is_query a = is_query b
  /\ get_error_message a mode = get_error_message b mode.
Proof.
  unfold sql_upper, validate_sql, is_query, get_error_message.
  intros H. cbv zeta. now rewrite H.
Qed.

(** X5: White space before and after a statement changes neither the verdict
    of a tier, nor the result branch, nor the denial message. *)
Theorem padding_is_ignored (before after sql : pystr) (mode : SecurityMode) :
  upper_keeps_space ->
  forallb isspace before = true ->
  forallb isspace after = true ->
  validate_sql (before ++ sql ++ after) mode = validate_sql sql mode
  /\ is_query (before ++ sql ++ after) = is_query sql
  /\ get_error_message (before ++ sql ++ after) mode
     = get_error_message sql mode.
Proof.
  intros Hup Hb Ha. apply decisions_follow_text. unfold sql_upper.
  rewrite !upper_app. apply strip_padding; now apply upper_blank.
Qed.

(** X6: A statement and its upper-cased form get the same verdict, the same
    result branch and the same denial message. *)
Theorem case_is_ignored (sql : pystr) (mode : SecurityMode) :
  upper_idempotent ->
  validate_sql (upper sql) mode = validate_sql sql mode
  /\ is_query (upper sql) = is_query sql
  /\ get_error_message (upper sql) mode = get_error_message sql mode.
Proof.
  intros Hid. apply decisions_follow_text. unfold sql_upper.
  now rewrite upper_upper.
Qed.

(** ** The driver calls of one statement *)

Lemma fetch_or_commit_trace (config : OracleConfig) (sql : pystr) (c : cursor) :
  fst (fetch_or_commit config sql c)
  = if is_query sql
    then match description c with None => [] | Some _ => [FetchAll] end
    else [Commit].
Proof.
  unfold fetch_or_commit, column_names.
  destruct (is_query sql); [| reflexivity].
  destruct (description c) as [columns |]; [| reflexivity].
  cbn. now destruct (build_results columns (fetchall c)).
Qed.

Lemma run_statement_cases (config : OracleConfig) (db : oracle) (sql : pystr)
    (params : option (list value)) :
  run_statement config db sql params
  = if connect db
    then
      if session_opens config db
      then
        match execute db sql (params_or_empty params) with
        | Raises =>
            (session_events config
               ++ [Execute sql (params_or_empty params); CloseCursor;
                   CloseConnection],
             inl DatabaseError)
        | Returns c =>
            (session_events config
               ++ Execute sql (params_or_empty params)
                    :: fst (fetch_or_commit config sql c)
               ++ [CloseCursor; CloseConnection],
             snd (fetch_or_commit config sql c))
        end
      else ([Connect; Execute alter_session []; CloseConnection],
            inl DatabaseError)
    else ([Connect], inl DatabaseError).
Proof.
  destruct (connect db) eqn:Hc.
  - destruct (session_opens config db) eqn:Hs.
    + destruct (execute db sql (params_or_empty params)) as [| c] eqn:He.
      * revert Hs. unfold session_opens, session_events, run_statement,
          get_connection. rewrite Hc, He. cbn [andb].
        destruct (is_readonly_mode config); [| reflexivity].
        destruct (execute db alter_session []); [discriminate | reflexivity].
      * exact (run_statement_ok config db sql params c Hs He).
    + revert Hs. unfold session_opens, run_statement, get_connection.
      rewrite Hc. cbn [andb].
      destruct (is_readonly_mode config); [| discriminate].
      destruct (execute db alter_session []); [reflexivity | discriminate].
  - unfold run_statement, get_connection. now rewrite Hc.
Qed.

Lemma query_never_commits (config : OracleConfig) (db : oracle) (sql : pystr)
    (params : option (list value)) :
  is_query sql = true ->
  ~ In Commit (fst (run_statement config db sql params)).
Proof.
  intros Hq. rewrite run_statement_cases.
  assert (Hse : ~ In Commit (session_events config)).
  { apply not_in_session_events. now left. }
  destruct (connect db); [| simpl; intuition discriminate].
  destruct (session_opens config db); [| simpl; intuition discriminate].
  destruct (execute db sql (params_or_empty params)) as [| c]; cbn [fst];
    rewrite in_app_iff; intros [H | H]; try (now apply Hse).
  - simpl in H. intuition discriminate.
  - rewrite fetch_or_commit_trace, Hq in H.
    destruct (description c); simpl in H; intuition discriminate.
Qed.

(** X9: Nothing is ever committed by [execute_query] under the read-only tier,
    by [execute_safe_query] under any tier, or by the schema resolver,
    whatever the statement and whatever the database answers. *)
Theorem read_paths_never_commit (config : OracleConfig) (db : oracle)
    (sql schema : pystr) (params : option (list value)) :
  (security_mode config = READONLY ->
   ~ In Commit (fst (execute_query config db sql params)))
  /\ ~ In Commit (fst (execute_safe_query config db sql params))
  /\ ~ In Commit (fst (_is_schema_allowed config db schema)).
Proof.
  assert (Hsafe : forall q ps,
             ~ In Commit (fst (execute_safe_query config db q ps))).
  { intros q ps. unfold execute_safe_query, execute_query.
    destruct (validate_sql q READONLY) eqn:Hro; cbn [negb]; [| intros []].
    destruct (validate_sql q (security_mode config)); cbn [negb];
      [| intros []].
    apply query_never_commits, readonly_keyword_is_query.
    apply validate_readonly_iff in Hro. tauto. }
  split; [| split; [apply Hsafe |]].
  - intros Hm. unfold execute_query. rewrite Hm.
    destruct (validate_sql sql READONLY) eqn:Hro; cbn [negb]; [| intros []].
    apply query_never_commits, readonly_keyword_is_query.
    apply validate_readonly_iff in Hro. tauto.
  - unfold _is_schema_allowed.
    destruct (is_all_schemas_allowed config); [intros [] |].
    destruct (is_auto_discover_schemas config); [| intros []].
    pose proof (Hsafe test_sql (Some [VText (upper schema)])) as H.
    destruct (execute_safe_query config db test_sql
                (Some [VText (upper schema)])) as [t [e | rows]];
      cbn in *; now rewrite app_nil_r.
Qed.

(** X10: A permitted statement always gives the connection back.  If the
    connection cannot be opened nothing else is called; once it is open the
    last driver call is its [close], and there is no second connect.  Once
    the session is set up, the statement's cursor is closed right before
    that, whether the driver raised, the conversion raised or all went
    well. *)
Theorem connection_is_released (config : OracleConfig) (db : oracle)
    (sql : pystr) (params : option (list value)) :
  validate_sql sql (security_mode config) = true ->
  (connect db = false ->
   execute_query config db sql params = ([Connect], inl DatabaseError))
  /\ (connect db = true ->
      exists t,
        fst (execute_query config db sql params)
        = Connect :: t ++ [CloseConnection]
        /\ ~ In Connect t /\ ~ In CloseConnection t)
  /\ (session_opens config db = true ->
      exists t,
        fst (execute_query config db sql params)
        = session_events config
            ++ Execute sql (params_or_empty params)
                 :: t ++ [CloseCursor; CloseConnection]
        /\ (forall ev, In ev t -> ev = FetchAll \/ ev = Commit)).
Proof.
  intros Hv. unfold execute_query. rewrite Hv. cbn [negb].
  rewrite run_statement_cases.
  split; [intros ->; reflexivity |]. split.
  - intros ->. unfold session_events.
    destruct (session_opens config db).
    + assert (Hfc : forall c,
          ~ In Connect (fst (fetch_or_commit config sql c))
          /\ ~ In CloseConnection (fst (fetch_or_commit config sql c))).
      { intros c. rewrite fetch_or_commit_trace.
        destruct (is_query sql); [destruct (description c) |];
          simpl; intuition discriminate. }
      destruct (execute db sql (params_or_empty params)) as [| c];
        destruct (is_readonly_mode config); cbn [fst app].
      * exists [Execute alter_session []; CloseCursor;
                Execute sql (params_or_empty params); CloseCursor].
        simpl. intuition discriminate.
      * exists [Execute sql (params_or_empty params); CloseCursor].
        simpl. intuition discriminate.
      * exists ([Execute alter_session []; CloseCursor;
                 Execute sql (params_or_empty params)]
                  ++ fst (fetch_or_commit config sql c) ++ [CloseCursor]).
        split; [simpl; now rewrite <- !app_assoc |].
        destruct (Hfc c) as [H1 H2].
        rewrite !in_app_iff. simpl. intuition discriminate.
      * exists ([Execute sql (params_or_empty params)]
                  ++ fst (fetch_or_commit config sql c) ++ [CloseCursor]).
        split; [simpl; now rewrite <- !app_assoc |].
        destruct (Hfc c) as [H1 H2].
        rewrite !in_app_iff. simpl. intuition discriminate.
    + exists [Execute alter_session []]. simpl. intuition discriminate.
  - intros Hs. rewrite Hs.
    assert (Hc : connect db = true).
    { unfold session_opens in Hs. apply andb_true_iff in Hs. tauto. }
    rewrite Hc.
    destruct (execute db sql (params_or_empty params)) as [| c]; cbn [fst].
    + exists []. split; [reflexivity | intros ev []].
    + exists (fst (fetch_or_commit config sql c)).
      split; [reflexivity |]. intros ev. rewrite fetch_or_commit_trace.
      destruct (is_query sql); [destruct (description c) |];
        simpl; intuition.
Qed.

(** ** Denials *)

(** X8: A statement that fails validation is refused before any driver call.
    The error names the leading keyword of the statement; it says
    "dangerous operation" exactly when that keyword is a dangerous one,
    "write operation" exactly when the tier is read-only and the keyword is
    a write keyword, and it is never the tier-less fallback text. *)
Theorem denial_names_the_keyword (config : OracleConfig) (db : oracle)
    (sql : pystr) (params : option (list value)) :
  validate_sql sql (security_mode config) = false ->
  exists text,
    execute_query config db sql params
    = ([], inl (PolicyViolation (text, leading_keyword sql)))
    /\ text <> ForbiddenByPolicy
    /\ (text = ReadonlyDangerousForbidden \/ text = LimitedDangerousForbidden
        <-> In (leading_keyword sql) DANGEROUS_OPERATIONS)
    /\ (text = ReadonlyWriteForbidden
        <-> security_mode config = READONLY
            /\ In (leading_keyword sql) WRITE_OPERATIONS).
Proof.
  intros Hv. unfold execute_query. rewrite Hv. cbn [negb].
  unfold get_error_message. fold (sql_upper sql). fold (leading_keyword sql).
  destruct (keyword_sets_disjoint (leading_keyword sql)) as (_ & _ & Hwd).
  destruct (security_mode config) eqn:Hm.
  - destruct (str_in (leading_keyword sql) WRITE_OPERATIONS) eqn:Hw.
    + apply str_in_In in Hw. eexists. split; [reflexivity |].
      split; [discriminate |]. split.
      * split; [intros [H | H]; discriminate | intros H; now apply Hwd in H].
      * tauto.
    + apply str_in_false in Hw.
      destruct (str_in (leading_keyword sql) DANGEROUS_OPERATIONS) eqn:Hd.
      * apply str_in_In in Hd. eexists. split; [reflexivity |].
        split; [discriminate |].
        split; [tauto | split; [discriminate | tauto]].
      * apply str_in_false in Hd. eexists. split; [reflexivity |].
        split; [discriminate |].
        split; [| split; [discriminate | tauto]].
        split; [intros [H | H]; discriminate | tauto].
  - destruct (str_in (leading_keyword sql) DANGEROUS_OPERATIONS) eqn:Hd.
    + apply str_in_In in Hd. eexists. split; [reflexivity |].
      split; [discriminate |].
      split; [tauto | split; [discriminate | intros [H _]; discriminate]].
    + apply str_in_false in Hd. eexists. split; [reflexivity |].
      split; [discriminate |].
      split; [| split; [discriminate | intros [H _]; discriminate]].
      split; [intros [H | H]; discriminate | tauto].
  - discriminate Hv.
Qed.

(** X7: What [get_security_info] reports about a tier binds the validator:
    without write permission no statement led by a write or dangerous
    keyword passes; without permission for dangerous operations no
    statement led by a dangerous keyword passes, and under the
    limited-write tier none that contains one; with that permission
    every statement passes. *)
Theorem tier_flags_bind_the_validator (config : OracleConfig) (sql : pystr) :
  is_readonly_mode config = negb (is_write_allowed config)
  /\ (is_write_allowed config = false ->
      In (leading_keyword sql) (WRITE_OPERATIONS ++ DANGEROUS_OPERATIONS) ->
      validate_sql sql (security_mode config) = false)
  /\ (is_dangerous_operation_allowed config = false ->
      In (leading_keyword sql) DANGEROUS_OPERATIONS ->
      validate_sql sql (security_mode config) = false)
  /\ (is_dangerous_operation_allowed config = false ->
      is_write_allowed config = true ->
      forall d, In d DANGEROUS_OPERATIONS ->
                contains (sql_upper sql) d = true ->
                validate_sql sql (security_mode config) = false)
  /\ (is_dangerous_operation_allowed config = true ->
      validate_sql sql (security_mode config) = true).
Proof.
  unfold is_readonly_mode, is_write_allowed, is_dangerous_operation_allowed.
  destruct (keyword_sets_disjoint (leading_keyword sql)) as (Hrw & Hrd & Hwd).
  assert (Hdeny : forall m, validate_sql sql m <> true ->
                            validate_sql sql m = false).
  { intros m H. now destruct (validate_sql sql m). }
  destruct (security_mode config);
    (split; [reflexivity |]); repeat split; try discriminate.
  - intros _ Hin. apply Hdeny. intros Hv.
    apply validate_readonly_iff in Hv. destruct Hv as (Hk & _).
    apply in_app_or in Hin. tauto.
  - intros _ Hin. apply Hdeny. intros Hv.
    apply validate_readonly_iff in Hv. tauto.
  - intros _ Hin. apply Hdeny. intros Hv.
    apply validate_limited_write_iff in Hv. destruct Hv as (Hk & _).
    apply in_app_or in Hk. tauto.
  - intros _ _ d Hd Hc. apply Hdeny. intros Hv.
    apply validate_limited_write_iff in Hv. destruct Hv as (_ & Hno).
    fold (sql_upper sql) in Hno. rewrite (Hno d Hd) in Hc. discriminate.
Qed.

(** ** Records are dictionaries *)

Lemma keys_dict_set (d : record) (k k' : pystr) (v : value) :
  In k' (map fst (dict_set d k v)) <-> k' = k \/ In k' (map fst d).
Proof.
  induction d as [|[k0 v0] d IH]; simpl; [intuition |].
  destruct (str_eqb k0 k) eqn:E; simpl.
  - apply str_eqb_eq in E. subst. intuition.
  - rewrite IH. intuition.
Qed.

Lemma NoDup_dict_set (d : record) (k : pystr) (v : value) :
  NoDup (map fst d) -> NoDup (map fst (dict_set d k v)).
Proof.
  induction d as [|[k0 v0] d IH]; simpl; intros H.
  - constructor; [intros [] | constructor].
  - inversion H as [|? ? Hn Hd]; subst.
    destruct (str_eqb k0 k) eqn:E; simpl; constructor; auto.
    rewrite keys_dict_set. intros [-> | Hin]; [| contradiction].
    assert (str_eqb k k = true) by now apply str_eqb_eq. congruence.
Qed.

Lemma dict_get_set_same (d : record) (k : pystr) (v : value) :
  dict_get (dict_set d k v) k = Some v.
Proof.
  assert (Hkk : str_eqb k k = true) by now apply str_eqb_eq.
  induction d as [|[k0 v0] d IH]; simpl; [now rewrite Hkk |].
  destruct (str_eqb k0 k) eqn:E; simpl; now rewrite E.
Qed.

Lemma dict_get_set_other (d : record) (k k' : pystr) (v : value) :
  k' <> k -> dict_get (dict_set d k v) k' = dict_get d k'.
Proof.
  intros Hne.
  assert (Hk : str_eqb k k' = false).
  { destruct (str_eqb k k') eqn:E; [| reflexivity].
    apply str_eqb_eq in E. congruence. }
  induction d as [|[k0 v0] d IH]; simpl; [now rewrite Hk |].
  destruct (str_eqb k0 k) eqn:E; simpl.
  - apply str_eqb_eq in E. subst k0. now rewrite Hk.
  - now rewrite IH.
Qed.

Lemma row_dict_from_invariant (columns : list pystr) (row : list value) :
  forall (i : nat) (d0 d : record),
    NoDup (map fst d0) ->
    row_dict_from columns row i d0 = inr d ->
    NoDup (map fst d)
    /\ (forall k, In k (map fst d) <-> In k (map fst d0) \/ In k columns)
    /\ (forall k, ~ In k columns -> dict_get d k = dict_get d0 k)
    /\ (forall before k after,
           columns = before ++ k :: after -> ~ In k after ->
           exists v, nth_error row (i + length before) = Some v
                     /\ dict_get d k = Some (normalize v)).
Proof.
  induction columns as [|c columns IH]; intros i d0 d Hnd H; simpl in H.
  - injection H as <-. split; [exact Hnd |]. split; [simpl; tauto |].
    split; [reflexivity |].
    intros before k after E. destruct before; discriminate.
  - destruct (nth_error row i) as [v0 |] eqn:Hv; [| discriminate].
    destruct (IH (S i) _ d (NoDup_dict_set d0 c (normalize v0) Hnd) H)
      as (H1 & H2 & H3 & H4).
    split; [exact H1 |]. split; [| split].
    + intros k. rewrite H2, keys_dict_set. simpl. intuition.
    + intros k Hk. simpl in Hk. rewrite H3 by tauto.
      apply dict_get_set_other. intuition.
    + intros before k after E Hk. destruct before as [| b before].
      * simpl in E. injection E as -> ->. exists v0.
        rewrite Nat.add_0_r. split; [exact Hv |].
        rewrite (H3 k Hk). apply dict_get_set_same.
      * simpl in E. injection E as -> ->.
        destruct (H4 before k after eq_refl Hk) as (v & Hn & Hg).
        exists v. split; [| exact Hg].
        simpl. now rewrite Nat.add_succ_r.
Qed.

Lemma row_dict_from_short (columns : list pystr) (row : list value) :
  forall (i : nat) (d0 : record),
    (i <= length row)%nat ->
    (length row < i + length columns)%nat ->
    row_dict_from columns row i d0 = inl IndexError.
Proof.
  induction columns as [|c columns IH]; intros i d0 Hi Hlen; simpl in *.
  - lia.
  - destruct (nth_error row i) as [v |] eqn:Hv; [| reflexivity].
    assert (i < length row)%nat by (apply nth_error_Some; congruence).
    apply IH; lia.
Qed.

(** X12: The record built from a row is a dictionary: its keys are the column
    names, each once, and looking a name up gives the normalized value of
    the last column of that name.  A row with fewer values than there are
    columns raises IndexError; any other row gives a record. *)
Theorem row_dict_is_a_dictionary (columns : list pystr) (row : list value) :
  ((length row < length columns)%nat ->
   row_dict columns row = inl IndexError)
  /\ ((length columns <= length row)%nat ->
      exists d,
        row_dict columns row = inr d
        /\ NoDup (map fst d)
        /\ (forall k, In k (map fst d) <-> In k columns)
        /\ (forall before k after,
               columns = before ++ k :: after -> ~ In k after ->
               exists v, nth_error row (length before) = Some v
                         /\ dict_get d k = Some (normalize v))).
Proof.
  split.
  - intros H. apply row_dict_from_short; simpl; lia.
  - intros H.
    destruct (row_dict_from_total columns [] row [] H) as (d & Hd).
    exists d. split; [exact Hd |].
    destruct (row_dict_from_invariant columns row 0 [] d (NoDup_nil _) Hd)
      as (H1 & H2 & _ & H4).
    split; [exact H1 |]. split; [| exact H4].
    intros k. rewrite H2. simpl. tauto.
Qed.

(** X13: The row cap always keeps a prefix of the rows.  A cap of at least the
    number of rows keeps them all, a smaller cap [N >= 0] keeps [N], and a
    negative cap [-k] drops the last [k] rows. *)
Theorem truncate_keeps_a_prefix (config : OracleConfig)
    (results : list record) :
  (exists dropped, results = truncate config results ++ dropped)
  /\ Z.of_nat (length (truncate config results))
     = (if Z.of_nat (length results) <=? max_result_rows config
        then Z.of_nat (length results)
        else if 0 <=? max_result_rows config
             then max_result_rows config
             else Z.max 0 (Z.of_nat (length results) + max_result_rows config))%Z.
Proof.
  unfold truncate, slice_to.
  destruct (Z.ltb_spec (max_result_rows config) (Z.of_nat (length results)))
    as [Hlt | Hge].
  - rewrite (proj2 (Z.leb_gt _ _) Hlt).
    destruct (Z.leb_spec 0 (max_result_rows config)).
    + split; [eexists; symmetry; apply firstn_skipn |].
      rewrite length_firstn. lia.
    + split; [eexists; symmetry; apply firstn_skipn |].
      rewrite length_firstn. lia.
  - rewrite (proj2 (Z.leb_le _ _) Hge).
    split; [exists []; now rewrite app_nil_r | reflexivity].
Qed.

(** ** The catalog queries *)

Lemma catalog_query_valid (sql : pystr) (mode : SecurityMode) :
  In sql catalog_queries ->
  validate_sql sql mode = true /\ is_query sql = true.
Proof.
  intros H. simpl in H.
  repeat destruct H as [<- | H]; try contradiction;
    destruct mode; split; vm_compute; reflexivity.
Qed.

Lemma catalog_query_runs (config : OracleConfig) (db : oracle)
    (sql : pystr) (params : option (list value)) :
  In sql catalog_queries ->
  execute_safe_query config db sql params
  = run_statement config db sql params.
Proof.
  intros H.
  destruct (catalog_query_valid sql READONLY H) as [Hro _].
  destruct (catalog_query_valid sql (security_mode config) H) as [Hm _].
  unfold execute_safe_query, execute_query. now rewrite Hro, Hm.
Qed.

(** X15: Every query that the class sends on its own behalf (the five catalog
    queries, the connection test and the schema probe) passes the read-only
    check and the check of every tier, so the forced read-only entry point
    never refuses it, and its result is fetched, not committed. *)
Theorem catalog_queries_pass_every_tier (config : OracleConfig) (db : oracle)
    (sql : pystr) (params : option (list value)) :
  In sql catalog_queries ->
  execute_safe_query config db sql params
  = run_statement config db sql params
  /\ is_query sql = true
  /\ ~ In Commit (fst (execute_safe_query config db sql params)).
Proof.
  intros H.
  destruct (catalog_query_valid sql READONLY H) as [_ Hq].
  pose proof (catalog_query_runs config db sql params H) as E.
  split; [exact E |]. split; [exact Hq |].
  rewrite E. now apply query_never_commits.
Qed.

Lemma resolver_never_raises (config : OracleConfig) (db : oracle)
    (schema : pystr) :
  exists b, snd (_is_schema_allowed config db schema) = inr b.
Proof.
  unfold _is_schema_allowed.
  destruct (is_all_schemas_allowed config); [now exists true |].
  destruct (is_auto_discover_schemas config); [| eexists; reflexivity].
  destruct (execute_safe_query config db test_sql
              (Some [VText (upper schema)])) as [t [e | rows]]; cbn;
    eexists; reflexivity.
Qed.

Lemma row_dict_from_error (columns : list pystr) (row : list value) :
  forall (i : nat) (d0 : record) (e : error),
    row_dict_from columns row i d0 = inl e -> e = IndexError.
Proof.
  induction columns as [|c columns IH]; intros i d0 e; simpl;
    [discriminate |].
  destruct (nth_error row i); [apply IH |].
  intros H. now injection H as <-.
Qed.

Lemma build_results_error (columns : list pystr) (rows : list (list value))
    (e : error) :
  build_results columns rows = inl e -> e = IndexError.
Proof.
  induction rows as [|row rows IH]; simpl; [discriminate |].
  destruct (row_dict columns row) as [e' | d] eqn:Hd.
  - intros H. injection H as <-.
    now apply (row_dict_from_error columns row 0 [] e').
  - destruct (build_results columns rows); [| discriminate].
    intros H. injection H as <-. now apply IH.
Qed.

Lemma run_statement_errors (config : OracleConfig) (db : oracle)
    (sql : pystr) (params : option (list value)) (e : error) :
  snd (run_statement config db sql params) = inl e ->
  e = DatabaseError \/ e = TypeError \/ e = IndexError.
Proof.
  rewrite run_statement_cases.
  destruct (connect db); [| cbn; intros H; injection H as <-; auto].
  destruct (session_opens config db);
    [| cbn; intros H; injection H as <-; auto].
  destruct (execute db sql (params_or_empty params)) as [| c];
    [cbn; intros H; injection H as <-; auto |].
  cbn [snd]. unfold fetch_or_commit, column_names.
  destruct (is_query sql); [| cbn; discriminate].
  destruct (description c) as [columns |];
    [| cbn; intros H; injection H as <-; auto].
  cbn. destruct (build_results columns (fetchall c)) as [e' | rs] eqn:Hb;
    cbn; [| discriminate].
  intros H. injection H as <-. right. right.
  now apply (build_results_error columns (fetchall c)).
Qed.

Lemma check_schema_cases {A : Type} (config : OracleConfig) (db : oracle)
    (schema : pystr) (rest : io A) :
  (snd (_is_schema_allowed config db schema) = inr false
   /\ check_schema config db schema rest
      = (fst (_is_schema_allowed config db schema),
         inl (SchemaNotAllowed schema (_get_allowed_schemas_display config))))
  \/ (snd (_is_schema_allowed config db schema) = inr true
      /\ check_schema config db schema rest
         = (fst (_is_schema_allowed config db schema) ++ fst rest,
            snd (from_io rest))).
Proof.
  unfold check_schema.
  destruct (resolver_never_raises config db schema) as (b & Hb).
  destruct (_is_schema_allowed config db schema) as [t r]. cbn in *.
  subst r. destruct b; [right | left]; auto.
Qed.

(** X16: Listing tables and describing a table: the schema check comes first
    and its refusal is the only error that is not the pipeline's; after
    it the catalog query goes to the database under every tier.  The list
    query binds the schema name as it was given (or the upper-cased user
    name when none was given), the structure query binds the upper-cased
    table and schema names.  Neither can fail with a policy error. *)
Theorem catalog_calls_after_the_schema_check (config : OracleConfig)
    (username : pystr) (db : oracle) (table_name : pystr)
    (schema : option pystr) :
  (snd (_is_schema_allowed config db (default_schema username schema))
   = inr true ->
   get_all_tables config username db schema
   = (fst (_is_schema_allowed config db (default_schema username schema))
        ++ fst (run_statement config db all_tables_sql
                  (Some [VText (default_schema username schema)])),
      snd (from_io (run_statement config db all_tables_sql
                      (Some [VText (default_schema username schema)]))))
   /\ get_table_structure config username db table_name schema
      = (fst (_is_schema_allowed config db (default_schema username schema))
           ++ fst (run_statement config db table_structure_sql
                     (Some [VText (upper table_name);
                            VText (upper (default_schema username schema))])),
         snd (from_io (run_statement config db table_structure_sql
                         (Some [VText (upper table_name);
                                VText (upper (default_schema username
                                                schema))])))))
  /\ (snd (_is_schema_allowed config db (default_schema username schema))
      = inr false ->
      get_all_tables config username db schema
      = (fst (_is_schema_allowed config db (default_schema username schema)),
         inl (SchemaNotAllowed (default_schema username schema)
                (_get_allowed_schemas_display config)))
      /\ get_table_structure config username db table_name schema
         = get_all_tables config username db schema)
  /\ (forall f,
        snd (get_all_tables config username db schema) = inl f
        \/ snd (get_table_structure config username db table_name schema)
           = inl f ->
        f = SchemaNotAllowed (default_schema username schema)
              (_get_allowed_schemas_display config)
        \/ f = Raised DatabaseError \/ f = Raised TypeError
        \/ f = Raised IndexError).
Proof.
  unfold get_all_tables, get_table_structure.
  set (s := default_schema username schema).
  assert (Ha : forall ps, execute_safe_query config db all_tables_sql ps
                          = run_statement config db all_tables_sql ps).
  { intros ps. apply catalog_query_runs. now left. }
  assert (Hs : forall ps, execute_safe_query config db table_structure_sql ps
                          = run_statement config db table_structure_sql ps).
  { intros ps. apply catalog_query_runs.
    right. right. now left. }
  rewrite Ha, Hs.
  assert (Herr : forall q ps f,
            snd (from_io (run_statement config db q ps)) = inl f ->
            f = Raised DatabaseError \/ f = Raised TypeError
            \/ f = Raised IndexError).
  { intros q ps f. unfold from_io. cbn [snd].
    destruct (snd (run_statement config db q ps)) as [e |] eqn:He;
      [| discriminate].
    intros H. injection H as <-.
    destruct (run_statement_errors config db q ps e He) as [-> | [-> | ->]];
      auto. }
  destruct (check_schema_cases config db s
              (run_statement config db all_tables_sql (Some [VText s])))
    as [[Hb Ea] | [Hb Ea]];
  destruct (check_schema_cases config db s
              (run_statement config db table_structure_sql
                 (Some [VText (upper table_name); VText (upper s)])))
    as [[Hb' Es] | [Hb' Es]]; try congruence; rewrite Ea, Es, Hb.
  - split; [discriminate |]. split; [auto |].
    intros f [H | H]; cbn in H; injection H as <-; auto.
  - split; [auto |]. split; [discriminate |].
    intros f [H | H]; right; now apply Herr in H.
Qed.

(** X17: Index and constraint lookups degrade: once the schema check has
    passed they always return a list, the rows of the catalog query or the
    empty list when anything at all went wrong; the refusal of the schema
    is the only error they can raise. *)
Theorem index_and_constraint_lookups_degrade (config : OracleConfig)
    (username : pystr) (db : oracle) (table_name : pystr)
    (schema : option pystr) :
  (forall f,
      snd (get_table_indexes config username db table_name schema) = inl f
      \/ snd (get_table_constraints config username db table_name schema)
         = inl f ->
      f = SchemaNotAllowed (default_schema username schema)
            (_get_allowed_schemas_display config))
  /\ (snd (_is_schema_allowed config db (default_schema username schema))
      = inr true ->
      snd (get_table_indexes config username db table_name schema)
      = inr (match snd (run_statement config db table_indexes_sql
                          (Some [VText (upper table_name);
                                 VText (upper (default_schema username
                                                 schema))])) with
             | inl _ => []
             | inr rows => rows
             end)
      /\ snd (get_table_constraints config username db table_name schema)
         = inr (match snd (run_statement config db table_constraints_sql
                             (Some [VText (upper table_name);
                                    VText (upper (default_schema username
                                                    schema))])) with
                | inl _ => []
                | inr rows => rows
                end)).
Proof.
  unfold get_table_indexes, get_table_constraints.
  set (s := default_schema username schema).
  assert (Hi : forall ps, execute_safe_query config db table_indexes_sql ps
                          = run_statement config db table_indexes_sql ps).
  { intros ps. apply catalog_query_runs.
    right. right. right. now left. }
  assert (Hc : forall ps,
             execute_safe_query config db table_constraints_sql ps
             = run_statement config db table_constraints_sql ps).
  { intros ps. apply catalog_query_runs.
    right. right. right. right. now left. }
  rewrite Hi, Hc.
  assert (Hsoft : forall (m : io (list record)),
            snd (from_io (try_except m (fun _ => ret [])))
            = inr (match snd m with inl _ => [] | inr rows => rows end)).
  { intros [t [e | rows]]; reflexivity. }
  destruct (check_schema_cases config db s
              (try_except
                 (run_statement config db table_indexes_sql
                    (Some [VText (upper table_name); VText (upper s)]))
                 (fun _ => ret [])))
    as [[Hb Ei] | [Hb Ei]];
  destruct (check_schema_cases config db s
              (try_except
                 (run_statement config db table_constraints_sql
                    (Some [VText (upper table_name); VText (upper s)]))
                 (fun _ => ret [])))
    as [[Hb' Ec] | [Hb' Ec]]; try congruence; rewrite Ei, Ec, Hb.
  - split; [| discriminate].
    intros f [H | H]; cbn in H; now injection H as <-.
  - cbn [snd]. rewrite !Hsoft. split; [| auto].
    intros f [H | H]; discriminate.
Qed.

(** X18: The connection test never raises.  It answers [false] when the
    connection cannot be opened, and, when the session opens and the
    driver returns rows, it answers whether the first value of the first
    row is 1, provided the row cap is at least one. *)
Theorem connection_test_answers (config : OracleConfig) (db : oracle) :
  (exists b, snd (test_connection config db) = inr b)
  /\ (connect db = false -> snd (test_connection config db) = inr false)
  /\ (forall c column columns v vs rows,
         session_opens config db = true ->
         execute db connection_test_sql [] = Returns c ->
         description c = Some (column :: columns) ->
         fetchall c = (v :: vs) :: rows ->
         Forall (fun row => (length (column :: columns) <= length row)%nat)
           (fetchall c) ->
         (1 <= max_result_rows config)%Z ->
         match columns with
         | [] => snd (test_connection config db)
                 = inr (equals_one (normalize v))
         | _ => True
         end).
Proof.
  unfold test_connection.
  assert (E : execute_safe_query config db connection_test_sql None
              = run_statement config db connection_test_sql None).
  { apply catalog_query_runs.
    right. right. right. right. right. now left. }
  rewrite E. split; [| split].
  - destruct (run_statement config db connection_test_sql None)
      as [t [e | rows]]; cbn; [eexists; reflexivity |].
    destruct (first_value_is_one rows); cbn; eexists; reflexivity.
  - intros Hc. rewrite run_statement_cases, Hc. reflexivity.
  - intros c column columns v vs rows Hs He Hd Hf Hrows Hn.
    destruct columns as [| column' columns]; [| exact I].
    rewrite (run_statement_ok config db connection_test_sql None c Hs He).
    unfold fetch_or_commit, column_names.
    replace (is_query connection_test_sql) with true by reflexivity.
    rewrite Hd. cbn.
    destruct (build_results_total [column] (fetchall c) Hrows)
      as (all & Hall & Hrec).
    rewrite Hall. cbn. rewrite truncate_cap by lia.
    rewrite Hf in Hrec. inversion Hrec as [| ? d ? ds Hd1 Hrest]; subst.
    destruct (Z.to_nat (max_result_rows config)) as [| cap] eqn:Hcap; [lia |].
    cbn [firstn]. unfold row_dict in Hd1. cbn in Hd1.
    injection Hd1 as <-. reflexivity.
Qed.

(** ** Reading the environment *)

(** X19: The accepted spellings of a tier: the value of each member is accepted
    and gives the member back, in lower and in upper case, and whatever is
    accepted is, lower-cased, the value of the member it gives. *)
Theorem security_mode_round_trip (m : SecurityMode) :
  validate_security_mode (mode_value m) = Some m
  /\ validate_security_mode (upper (mode_value m)) = Some m
  /\ (forall v m',
        validate_security_mode v = Some m' -> lower v = mode_value m').
Proof.
  split; [now destruct m |]. split; [now destruct m |].
  intros v m'. unfold validate_security_mode, mode_of_value.
  destruct (str_eqb (lower v) (str "readonly")) eqn:E1.
  { intros H. injection H as <-. now apply str_eqb_eq. }
  destruct (str_eqb (lower v) (str "limited_write")) eqn:E2.
  { intros H. injection H as <-. now apply str_eqb_eq. }
  destruct (str_eqb (lower v) (str "full_access")) eqn:E3; [| discriminate].
  intros H. injection H as <-. now apply str_eqb_eq.
Qed.

Lemma split_on_cons (sep : codepoint) (s : pystr) :
  exists w ws, split_on sep s = w :: ws.
Proof.
  destruct s as [|c s]; simpl; [now exists [], [] |].
  destruct (c =? sep); [now eexists; eexists |].
  destruct (split_on sep s); now eexists; eexists.
Qed.

Lemma join_cons (sep : codepoint) (c : codepoint) (w : pystr)
    (ws : list pystr) :
  join [sep] ((c :: w) :: ws) = c :: join [sep] (w :: ws).
Proof. destruct ws; reflexivity. Qed.

Lemma join_split_on (sep : codepoint) (s : pystr) :
  join [sep] (split_on sep s) = s.
Proof.
  induction s as [|c s IH]; [reflexivity |]. cbn [split_on].
  destruct (split_on_cons sep s) as (w & ws & E). rewrite E in *.
  destruct (c =? sep) eqn:Hc.
  - apply N.eqb_eq in Hc. subst c.
    change (join [sep] ([] :: w :: ws)) with ([] ++ [sep] ++ join [sep] (w :: ws)).
    now rewrite IH.
  - now rewrite join_cons, IH.
Qed.

Lemma split_on_pieces (sep : codepoint) (s w : pystr) :
  In w (split_on sep s) -> ~ In sep w.
Proof.
  revert w. induction s as [|c s IH]; intros w; cbn [split_on].
  - intros [<- | []] [].
  - destruct (split_on_cons sep s) as (w0 & ws & E). rewrite E in *.
    destruct (c =? sep) eqn:Hc.
    + intros [<- | H]; [intros [] | now apply IH].
    + apply N.eqb_neq in Hc. intros [<- | H].
      * intros [-> | H]; [congruence |]. apply (IH w0); [now left | exact H].
      * apply IH. now right.
Qed.

Lemma split_on_piece (sep : codepoint) (w : pystr) :
  ~ In sep w -> split_on sep w = [w].
Proof.
  induction w as [|c w IH]; [reflexivity |]. intros H. cbn [split_on].
  assert (Hc : (c =? sep) = false).
  { apply N.eqb_neq. intros ->. apply H. now left. }
  rewrite Hc, IH; [reflexivity |]. intros Hin. apply H. now right.
Qed.

Lemma split_on_app (sep : codepoint) (w rest : pystr) :
  ~ In sep w ->
  split_on sep (w ++ sep :: rest) = w :: split_on sep rest.
Proof.
  induction w as [|c w IH]; intros H; cbn [app split_on].
  - now rewrite N.eqb_refl.
  - assert (Hc : (c =? sep) = false).
    { apply N.eqb_neq. intros ->. apply H. now left. }
    rewrite Hc, IH; [reflexivity |]. intros Hin. apply H. now right.
Qed.

(** X20: The comma-separated list of ORACLE_ALLOWED_SCHEMAS: splitting never
    gives the empty list, so [validate_schemas] accepts every value of the
    variable, the empty text included; no piece contains a comma; joining
    the pieces with commas gives the text back, and splitting a joined
    list of comma-free names gives the names back. *)
Theorem comma_separated_names (text : pystr) :
  validate_schemas (split_on 44 text) = Some (split_on 44 text)
  /\ join [44] (split_on 44 text) = text
  /\ (forall w, In w (split_on 44 text) -> ~ In 44 w)
  /\ (forall name names,
        (forall w, In w (name :: names) -> ~ In 44 w) ->
        split_on 44 (join [44] (name :: names)) = name :: names).
Proof.
  split; [| split; [apply join_split_on | split; [apply split_on_pieces |]]].
  - destruct (split_on_cons 44 text) as (w & ws & ->). reflexivity.
  - intros name names. revert name.
    induction names as [|n names IH]; intros name H.
    + apply split_on_piece. apply H. now left.
    + change (join [44] (name :: n :: names))
        with (name ++ 44 :: join [44] (n :: names)).
      rewrite split_on_app by (apply H; now left).
      rewrite IH; [reflexivity |]. intros w Hw. apply H. now right.
Qed.

Lemma data_get_set_same (d : config_data) (k : pystr) (v : setting) :
  data_get (data_set d k v) k = Some v.
Proof.
  assert (Hkk : str_eqb k k = true) by now apply str_eqb_eq.
  induction d as [|[k0 v0] d IH]; simpl; [now rewrite Hkk |].
  destruct (str_eqb k0 k) eqn:E; simpl; now rewrite E.
Qed.

Lemma data_get_set_other (d : config_data) (k k' : pystr) (v : setting) :
  k' <> k -> data_get (data_set d k v) k' = data_get d k'.
Proof.
  intros Hne.
  assert (Hk : str_eqb k k' = false).
  { destruct (str_eqb k k') eqn:E; [| reflexivity].
    apply str_eqb_eq in E. congruence. }
  induction d as [|[k0 v0] d IH]; simpl; [now rewrite Hk |].
  destruct (str_eqb k0 k) eqn:E; simpl.
  - apply str_eqb_eq in E. subst k0. now rewrite Hk.
  - now rewrite IH.
Qed.

Lemma read_optional_keeps (env : environment)
    (vars : list (pystr * (pystr * converter))) (k : pystr) :
  ~ In k (map (fun x => fst (snd x)) vars) ->
  forall data data',
    read_optional env vars data = inr data' ->
    data_get data' k = data_get data k.
Proof.
  induction vars as [|[env_var [field kind]] vars IH]; intros Hk data data';
    cbn [read_optional].
  - intros H. now injection H as <-.
  - cbn [map fst snd In] in Hk.
    destruct (env env_var) as [value |]; [| apply IH; tauto].
    destruct (convert kind value) as [v |]; [| discriminate].
    intros H. rewrite (IH ltac:(tauto) _ _ H).
    apply data_get_set_other. intros ->. tauto.
Qed.

Ltac decide_names :=
  repeat match goal with
    | |- context [str_eqb (str ?a) (str ?b)] =>
        let r := eval vm_compute in (str_eqb (str a) (str b)) in
        change (str_eqb (str a) (str b)) with r
    end.

(** X21: The required variables.  A port that is set but is not an integer is
    reported at once, whatever else is missing.  Otherwise, if any of the
    four variables is unset, the error lists exactly the unset ones, in
    the order host, port, user name, password; a variable set to the empty
    text counts as set. *)
Theorem required_variables_are_checked_together (env : environment) :
  (forall p,
      env (str "ORACLE_PORT") = Some p -> py_int py p = None ->
      from_env_data env = inl PortNotAnInteger)
  /\ ((forall p, env (str "ORACLE_PORT") = Some p -> py_int py p <> None) ->
      unset env (map fst required_env_vars) <> [] ->
      from_env_data env
      = inl (MissingVariables (unset env (map fst required_env_vars))))
  /\ (forall data,
        from_env_data env = inr data ->
        unset env (map fst required_env_vars) = []).
Proof.
  unfold from_env_data, unset, required_env_vars.
  cbn [read_required map fst filter]. decide_names.
  destruct (env (str "ORACLE_HOST")) as [host |];
    destruct (env (str "ORACLE_PORT")) as [port |];
    try destruct (py_int py port) as [n |] eqn:Hn;
    destruct (env (str "ORACLE_USERNAME")) as [user |];
    destruct (env (str "ORACLE_PASSWORD")) as [password |];
    cbn [app];
    (split; [intros p Hp Hi; try discriminate;
             try (injection Hp as <-; congruence); reflexivity |]);
    (split; [intros Hp Hne;
             try (exfalso; apply (Hp port eq_refl); exact Hn);
             try reflexivity; try (now contradiction Hne) |]);
    intros data H; try discriminate; reflexivity.
Qed.

(** X22: The connection identifier.  The data that [from_env] hands to the
    model has a service name or a SID, never both and never neither.  The
    service name is taken whenever ORACLE_SERVICE_NAME is set and not
    empty, and then ORACLE_SID is ignored; a variable that is set but empty
    counts as unset. *)
Theorem connection_identifier_is_unique (env : environment)
    (data : config_data) :
  from_env_data env = inr data ->
  (is_set (env (str "ORACLE_SERVICE_NAME")) = true ->
   data_get data (str "service_name")
   = option_map SText (env (str "ORACLE_SERVICE_NAME"))
   /\ data_get data (str "sid") = None)
  /\ (is_set (env (str "ORACLE_SERVICE_NAME")) = false ->
      is_set (env (str "ORACLE_SID")) = true
      /\ data_get data (str "sid") = option_map SText (env (str "ORACLE_SID"))
      /\ data_get data (str "service_name") = None).
Proof.
  unfold from_env_data.
  destruct (read_required env required_env_vars [] [])
    as [e | [data0 missing]] eqn:Hreq; [discriminate |].
  destruct missing; [| discriminate].
  assert (Hfresh : data_get data0 (str "service_name") = None
                   /\ data_get data0 (str "sid") = None).
  { revert Hreq. unfold required_env_vars. cbn [read_required].
    decide_names.
    destruct (env (str "ORACLE_HOST")); destruct (env (str "ORACLE_PORT"));
      try destruct (py_int py _);
      destruct (env (str "ORACLE_USERNAME"));
      destruct (env (str "ORACLE_PASSWORD"));
      cbn [app]; intros H; try discriminate;
      injection H as <-; split; vm_compute; reflexivity. }
  destruct Hfresh as [Hsn Hsid].
  assert (Hopt : forall k d d',
             (k = str "service_name" \/ k = str "sid") ->
             read_optional env optional_env_vars d = inr d' ->
             data_get d' k = data_get d k).
  { intros k d d' Hk. apply read_optional_keeps.
    unfold optional_env_vars. cbn [map fst snd In].
    destruct Hk as [-> | ->]; intros H;
      repeat destruct H as [H | H]; try discriminate; contradiction. }
  destruct (env (str "ORACLE_SERVICE_NAME")) as [[| c sn] |] eqn:Esn;
    cbn [is_set].
  - destruct (env (str "ORACLE_SID")) as [[| c sid] |] eqn:Esid;
      try discriminate.
    intros H. split; [discriminate | intros _].
    split; [reflexivity |].
    rewrite (Hopt _ _ _ (or_intror eq_refl) H),
      (Hopt _ _ _ (or_introl eq_refl) H).
    rewrite data_get_set_same, data_get_set_other by discriminate.
    auto.
  - intros H. split; [intros _ | discriminate].
    rewrite (Hopt _ _ _ (or_intror eq_refl) H),
      (Hopt _ _ _ (or_introl eq_refl) H).
    rewrite data_get_set_same, data_get_set_other by discriminate.
    auto.
  - destruct (env (str "ORACLE_SID")) as [[| c sid] |] eqn:Esid;
      try discriminate.
    intros H. split; [discriminate | intros _].
    split; [reflexivity |].
    rewrite (Hopt _ _ _ (or_intror eq_refl) H),
      (Hopt _ _ _ (or_introl eq_refl) H).
    rewrite data_get_set_same, data_get_set_other by discriminate.
    auto.
Qed.

(** ** The session directive of the read-only tier *)

(** X11: Once connected, the first thing sent under the read-only tier is the
    ALTER SESSION directive and under the other tiers it is the statement
    itself.  If the directive fails the call ends with a database error:
    the statement is never sent and the connection is closed. *)
Theorem session_directive_comes_first (config : OracleConfig) (db : oracle)
    (sql : pystr) (params : option (list value)) :
  validate_sql sql (security_mode config) = true ->
  connect db = true ->
  (is_readonly_mode config = false ->
   exists t,
     fst (execute_query config db sql params)
     = Connect :: Execute sql (params_or_empty params) :: t)
  /\ (is_readonly_mode config = true ->
      exists t,
        fst (execute_query config db sql params)
        = Connect :: Execute alter_session [] :: t)
  /\ (is_readonly_mode config = true ->
      execute db alter_session [] = Raises ->
      execute_query config db sql params
      = ([Connect; Execute alter_session []; CloseConnection],
         inl DatabaseError)).
Proof.
  intros Hv Hc. unfold execute_query. rewrite Hv. cbn [negb].
  rewrite run_statement_cases, Hc.
  unfold session_opens, session_events. rewrite Hc. cbn [andb].
  split; [| split].
  - intros ->.
    destruct (execute db sql (params_or_empty params));
      cbn; eexists; reflexivity.
  - intros ->.
    destruct (execute db alter_session []); [cbn; eexists; reflexivity |].
    destruct (execute db sql (params_or_empty params));
      cbn; eexists; reflexivity.
  - intros -> ->. reflexivity.
Qed.

(** ** What a two-word pattern finds *)

(** X2: A pattern [\bA\s+B\b] is found in a text exactly when the text holds
    [A], then one or more white-space code points, then [B], with a word
    boundary before [A] and one after [B]. *)
Theorem two_words_occurrence (a b : string) (s : pystr) :
  re_search (two_words a b) s = true <->
  exists before gap after,
    s = before ++ str a ++ gap ++ str b ++ after
    /\ gap <> []
    /\ forallb isspace gap = true
    /\ at_boundary (last_seen before None)
         (str a ++ gap ++ str b ++ after) = true
    /\ at_boundary
         (last_seen (str b)
            (last_seen gap (last_seen (str a) (last_seen before None))))
         after = true.
Proof.
  unfold re_search. rewrite search_from_spec. unfold two_words. split.
  - intros (before & rest & -> & H).
    inversion H as [| ? ? ? Hb1 H1 | | |]; subst.
    inversion H1 as [| | ? ? ? rest1 H2 | |]; subst.
    inversion H2 as [| | | ? ? c run rest2 Hsp H3 |]; subst.
    inversion H3 as [| | ? ? ? rest3 H4 | |]; subst.
    inversion H4 as [| ? ? ? Hb2 _ | | |]; subst.
    exists before, (c :: run), rest3.
    split; [reflexivity |]. split; [discriminate |].
    split; [exact Hsp |]. split; [exact Hb1 | exact Hb2].
  - intros (before & gap & after & -> & Hne & Hsp & Hb1 & Hb2).
    exists before, (str a ++ gap ++ str b ++ after).
    split; [reflexivity |].
    destruct gap as [| c run]; [contradiction |].
    constructor; [exact Hb1 |]. constructor.
    change ((c :: run) ++ str b ++ after) with (c :: run ++ str b ++ after).
    constructor; [exact Hsp |]. constructor.
    constructor; [exact Hb2 | constructor].
Qed.

(** ** Failures under the full-access tier *)



End UnicodeTables.

(** ** The theorems at sample statements *)

Ltac each_keyword H :=
  simpl in H; repeat destruct H as [<- | H]; try reflexivity;
  try contradiction.

Lemma limited_write_policy_witness :
  leading_keyword latin merge_query = str "MERGE"
  /\ validate_sql latin merge_query LIMITED_WRITE = true.
Proof.
  split; [reflexivity |].
  apply (proj2 (proj2 (proj2 (limited_write_policy latin))) merge_query).
  - reflexivity.
  - intros d Hd. each_keyword Hd.
Defined.

Lemma limited_write_tokens_counterexample :
  ~ (validate_sql latin created_at_query LIMITED_WRITE = true <->
     In (leading_keyword latin created_at_query)
        (READONLY_OPERATIONS ++ WRITE_OPERATIONS)
     /\ (forall d, In d DANGEROUS_OPERATIONS ->
                   appears_as_token d (sql_upper latin created_at_query)
                   = false)).
Proof.
  intros [_ H].
  assert (Hv : validate_sql latin created_at_query LIMITED_WRITE = true).
  { apply H. split; [simpl; tauto |]. intros d Hd. each_keyword Hd. }
  vm_compute in Hv. discriminate.
Qed.

Lemma readonly_policy_witness :
  leading_keyword latin (str "select 1; drop  table t") = str "SELECT"
  /\ occurs latin (two_words "DROP" "TABLE")
       (sql_upper latin (str "select 1; drop  table t"))
  /\ validate_sql latin (str "select 1; drop  table t") READONLY = false.
Proof.
  assert (Ho : occurs latin (two_words "DROP" "TABLE")
                 (sql_upper latin (str "select 1; drop  table t"))).
  { apply re_search_spec. reflexivity. }
  split; [reflexivity |]. split; [exact Ho |].
  apply (proj1 (proj2 (readonly_policy latin))
           (str "select 1; drop  table t") (two_words "DROP" "TABLE")).
  - reflexivity.
  - now left.
  - exact Ho.
Defined.

Lemma readonly_other_keywords_witness :
  In (leading_keyword latin with_query)
     [str "WITH"; str "DESC"; str "DESCRIBE"; str "EXPLAIN"]
  /\ (validate_sql latin with_query READONLY = false <->
      exists w, In w (WRITE_OPERATIONS ++ DANGEROUS_OPERATIONS)
                /\ contains (sql_upper latin with_query) w = true).
Proof.
  assert (Hk : In (leading_keyword latin with_query)
                  [str "WITH"; str "DESC"; str "DESCRIBE"; str "EXPLAIN"]).
  { now left. }
  split; [exact Hk |].
  exact (proj1 (readonly_other_keywords latin with_query Hk)).
Defined.

Lemma readonly_tokens_counterexample :
  In (leading_keyword latin with_query)
     [str "WITH"; str "DESC"; str "DESCRIBE"; str "EXPLAIN"]
  /\ ~ (validate_sql latin with_query READONLY = false <->
        exists w, In w (WRITE_OPERATIONS ++ DANGEROUS_OPERATIONS)
                  /\ appears_as_token w (sql_upper latin with_query) = true).
Proof.
  split; [now left |]. intros [H _].
  destruct (H eq_refl) as (w & Hw & Ht).
  simpl in Hw.
  repeat destruct Hw as [<- | Hw]; try (vm_compute in Ht; discriminate).
  contradiction.
Qed.

(** Neither statement has a forbidden keyword as a word in the sense of
    [\b] either: CREATED_AT is one word. *)
Example created_at_is_one_word :
  forallb (fun w => negb (appears_as_word latin w
                            (sql_upper latin created_at_query))
                    && negb (appears_as_word latin w
                               (sql_upper latin with_query)))
    (WRITE_OPERATIONS ++ DANGEROUS_OPERATIONS) = true.
Proof. reflexivity. Qed.

Lemma upper_keeps_space_latin : upper_keeps_space latin.
Proof. intros c Hc. simpl. now rewrite Hc. Qed.

Lemma upper_respects_space_latin : upper_respects_space latin.
Proof.
  intros c. split; [discriminate |]. simpl. now rewrite eqb_reflx.
Qed.


Lemma blank_statement_denied_witness :
  upper_keeps_space latin
  /\ forallb isspace blank = true
  /\ leading_keyword latin blank = []
  /\ validate_sql latin blank READONLY = false
  /\ validate_sql latin blank LIMITED_WRITE = false.
Proof.
  assert (Hb : forallb isspace blank = true) by reflexivity.
  destruct (blank_statement_denied latin blank upper_keeps_space_latin Hb)
    as (Hk & _ & _ & _ & Hr & Hl).
  repeat split; assumption || exact upper_keeps_space_latin.
Defined.

Lemma forced_readonly_gate_witness :
  validate_sql latin two_column_query READONLY = true
  /\ execute_safe_query latin (config_of LIMITED_WRITE [str "*"] 1000)
       five_row_db two_column_query None
     = run_statement latin (config_of LIMITED_WRITE [str "*"] 1000)
         five_row_db two_column_query None.
Proof.
  split; [reflexivity |].
  apply (proj1 (proj2 (forced_readonly_gate latin
                         (config_of LIMITED_WRITE [str "*"] 1000)
                         five_row_db two_column_query None)));
    reflexivity.
Defined.

Lemma forced_readonly_counterexample :
  validate_sql latin created_at_query READONLY = true
  /\ execute_safe_query latin (config_of LIMITED_WRITE [str "*"] 1000)
       five_row_db created_at_query None
     = raise (PolicyViolation (LimitedUnsupported, str "SELECT"))
  /\ ~ reaches_database
         (execute_safe_query latin (config_of LIMITED_WRITE [str "*"] 1000)
            five_row_db created_at_query None).
Proof.
  split; [reflexivity |]. split; [reflexivity |].
  vm_compute. tauto.
Qed.

Lemma result_branch_witness :
  validate_sql latin (str "update t set v = 1") LIMITED_WRITE = true
  /\ is_query latin (str "update t set v = 1") = false
  /\ execute_query latin (config_of LIMITED_WRITE [str "*"] 1000)
       five_row_db (str "update t set v = 1") None
     = ([Connect; Execute (str "update t set v = 1") []; Commit;
         CloseCursor; CloseConnection],
        inr [summary 5]).
Proof.
  split; [reflexivity |]. split; [reflexivity |].
  apply (proj1 (proj2 (result_branch latin
                         (config_of LIMITED_WRITE [str "*"] 1000)
                         five_row_db (str "update t set v = 1") None
                         five_rows eq_refl eq_refl eq_refl))).
  reflexivity.
Defined.

Lemma result_branch_counterexample :
  validate_sql latin select_star_query FULL_ACCESS = true
  /\ ~ In (leading_keyword latin select_star_query) READONLY_OPERATIONS
  /\ execute_query latin (config_of FULL_ACCESS [str "*"] 1000)
       five_row_db select_star_query None
     = ([Connect; Execute select_star_query []; FetchAll; CloseCursor;
         CloseConnection],
        inr [ [(str "ID", VNum 1); (str "NAME", VText (str "a"))];
              [(str "ID", VNum 2); (str "NAME", VText (str "b"))];
              [(str "ID", VNum 3);
               (str "NAME", VText (str "2025-01-02T03:04:05"))];
              [(str "ID", VNum 4); (str "NAME", VNone)];
              [(str "ID", VNum 5); (str "NAME", VText (str "e"))] ]).
Proof.
  split; [reflexivity |]. split; [| reflexivity].
  vm_compute. intros H.
  repeat destruct H as [H | H]; try discriminate; contradiction.
Qed.

Lemma row_cap_witness :
  (0 <= max_result_rows (config_of READONLY [str "*"] 2))%Z
  /\ exists rows,
       snd (execute_query latin (config_of READONLY [str "*"] 2)
              five_row_db two_column_query None) = inr rows
       /\ Forall2 (fun row d => row_dict [str "ID"; str "NAME"] row = inr d)
            (firstn (Z.to_nat
                       (max_result_rows (config_of READONLY [str "*"] 2)))
               (fetchall five_rows))
            rows
       /\ Z.of_nat (length rows)
          = Z.min (Z.of_nat (length (fetchall five_rows)))
              (max_result_rows (config_of READONLY [str "*"] 2)).
Proof.
  split; [simpl; lia |].
  apply (row_cap latin (config_of READONLY [str "*"] 2) five_row_db
           two_column_query None five_rows [str "ID"; str "NAME"]);
    try reflexivity.
  - repeat constructor.
  - simpl. lia.
Defined.

Lemma row_cap_counterexample :
  exists rows,
    snd (execute_query latin (config_of READONLY [str "*"] (-1))
           five_row_db two_column_query None) = inr rows
    /\ length rows = 4%nat
    /\ Z.of_nat (length rows)
       <> Z.min (Z.of_nat (length (fetchall five_rows))) (-1).
Proof.
  eexists. split; [reflexivity |]. split; [reflexivity |].
  vm_compute. discriminate.
Qed.

Lemma schema_resolution_witness :
  In (str "*") (allowed_schemas (config_of READONLY [str "auto"; str "*"] 10))
  /\ _is_schema_allowed latin (config_of READONLY [str "auto"; str "*"] 10)
       broken_db (str "finance")
     = ret true.
Proof.
  assert (H : In (str "*")
                (allowed_schemas
                   (config_of READONLY [str "auto"; str "*"] 10))).
  { simpl. right. now left. }
  split; [exact H |].
  exact (proj1 (schema_resolution latin
                  (config_of READONLY [str "auto"; str "*"] 10)
                  broken_db (str "finance")) H).
Defined.

(** With a row cap of zero the probe's rows are cut away and the resolver
    answers [false] although the driver found rows. *)
Example auto_discover_cap_zero :
  snd (_is_schema_allowed latin (config_of READONLY [str "auto"] 0)
         five_row_db (str "hr")) = inr false
  /\ snd (_is_schema_allowed latin (config_of READONLY [str "auto"] 1)
            five_row_db (str "hr")) = inr true.
Proof. split; reflexivity. Qed.

Lemma auto_discover_probe_witness :
  ~ In (str "*") (allowed_schemas (config_of READONLY [str "auto"] 10))
  /\ In (str "auto") (allowed_schemas (config_of READONLY [str "auto"] 10))
  /\ snd (_is_schema_allowed latin (config_of READONLY [str "auto"] 10)
            broken_db (str "hr")) = inr false.
Proof.
  assert (H1 : ~ In (str "*")
                   (allowed_schemas (config_of READONLY [str "auto"] 10))).
  { simpl. intros [H | []]. discriminate. }
  assert (H2 : In (str "auto")
                 (allowed_schemas (config_of READONLY [str "auto"] 10))).
  { simpl. now left. }
  split; [exact H1 |]. split; [exact H2 |].
  apply (proj1 (proj2 (proj2 (auto_discover_probe latin
                                (config_of READONLY [str "auto"] 10)
                                broken_db (str "hr") H1 H2)))
           DatabaseError).
  reflexivity.
Defined.

(** ** More theorems at sample statements *)

Lemma readonly_permit_carries_over_witness :
  validate_sql latin (str "WITH X AS (SELECT 1 FROM DUAL) SELECT * FROM X")
    READONLY = true
  /\ validate_sql latin (str "WITH X AS (SELECT 1 FROM DUAL) SELECT * FROM X")
       LIMITED_WRITE = true.
Proof.
  split; [reflexivity |].
  apply (proj2 (readonly_permit_carries_over latin
                  (str "WITH X AS (SELECT 1 FROM DUAL) SELECT * FROM X")
                  eq_refl)).
  discriminate.
Defined.

Lemma padding_is_ignored_witness :
  upper_keeps_space latin
  /\ forallb isspace blank = true
  /\ validate_sql latin (blank ++ two_column_query ++ blank) READONLY
     = validate_sql latin two_column_query READONLY.
Proof.
  split; [exact upper_keeps_space_latin |]. split; [reflexivity |].
  exact (proj1 (padding_is_ignored latin blank blank two_column_query
                  READONLY upper_keeps_space_latin eq_refl eq_refl)).
Defined.

Lemma upper_idempotent_latin : upper_idempotent latin.
Proof.
  intros c Ha. simpl. rewrite app_nil_r. unfold upper_char.
  now rewrite Ha.
Qed.

Lemma case_is_ignored_witness :
  upper_idempotent latin
  /\ validate_sql latin (upper latin (str "select 1 from dual")) READONLY
     = validate_sql latin (str "select 1 from dual") READONLY.
Proof.
  split; [exact upper_idempotent_latin |].
  exact (proj1 (case_is_ignored latin (str "select 1 from dual") READONLY
                  upper_idempotent_latin)).
Defined.

Lemma read_paths_never_commit_witness :
  security_mode (config_of READONLY [str "auto"] 10) = READONLY
  /\ ~ In Commit
       (fst (execute_query latin (config_of READONLY [str "auto"] 10)
               five_row_db two_column_query None)).
Proof.
  split; [reflexivity |].
  exact (proj1 (read_paths_never_commit latin
                  (config_of READONLY [str "auto"] 10) five_row_db
                  two_column_query (str "hr") None) eq_refl).
Defined.

Lemma connection_is_released_witness :
  validate_sql latin two_column_query LIMITED_WRITE = true
  /\ session_opens (config_of LIMITED_WRITE [str "*"] 10) broken_db = true
  /\ exists t,
       fst (execute_query latin (config_of LIMITED_WRITE [str "*"] 10)
              broken_db two_column_query None)
       = session_events (config_of LIMITED_WRITE [str "*"] 10)
           ++ Execute two_column_query (params_or_empty None)
                :: t ++ [CloseCursor; CloseConnection]
       /\ (forall ev, In ev t -> ev = FetchAll \/ ev = Commit).
Proof.
  split; [reflexivity |]. split; [reflexivity |].
  exact (proj2 (proj2 (connection_is_released latin
                         (config_of LIMITED_WRITE [str "*"] 10) broken_db
                         two_column_query None eq_refl)) eq_refl).
Defined.

Lemma denial_names_the_keyword_witness :
  validate_sql latin (str "drop table t")
    (security_mode (config_of LIMITED_WRITE [str "*"] 10)) = false
  /\ exists text,
       execute_query latin (config_of LIMITED_WRITE [str "*"] 10) five_row_db
         (str "drop table t") None
       = ([], inl (PolicyViolation
                     (text, leading_keyword latin (str "drop table t"))))
       /\ text <> ForbiddenByPolicy
       /\ (text = ReadonlyDangerousForbidden
           \/ text = LimitedDangerousForbidden
           <-> In (leading_keyword latin (str "drop table t"))
                 DANGEROUS_OPERATIONS)
       /\ (text = ReadonlyWriteForbidden
           <-> security_mode (config_of LIMITED_WRITE [str "*"] 10) = READONLY
               /\ In (leading_keyword latin (str "drop table t"))
                    WRITE_OPERATIONS).
Proof.
  split; [reflexivity |].
  exact (denial_names_the_keyword latin (config_of LIMITED_WRITE [str "*"] 10)
           five_row_db (str "drop table t") None eq_refl).
Defined.

Lemma tier_flags_bind_the_validator_witness :
  is_write_allowed (config_of READONLY [str "*"] 10) = false
  /\ validate_sql latin (str "update t set v = 1")
       (security_mode (config_of READONLY [str "*"] 10)) = false.
Proof.
  split; [reflexivity |].
  apply (proj1 (proj2 (tier_flags_bind_the_validator latin
                         (config_of READONLY [str "*"] 10)
                         (str "update t set v = 1"))));
    [reflexivity |].
  simpl. right. now left.
Defined.

Lemma row_dict_is_a_dictionary_witness :
  (length [VNum 1; VNum 2; VLob (str "x")]
   < length [str "A"; str "B"; str "A"; str "C"])%nat
  /\ row_dict [str "A"; str "B"; str "A"; str "C"]
       [VNum 1; VNum 2; VLob (str "x")] = inl IndexError
  /\ exists v,
       nth_error [VNum 1; VNum 2; VLob (str "x")] 2 = Some v
       /\ exists d,
            row_dict [str "A"; str "B"; str "A"]
              [VNum 1; VNum 2; VLob (str "x")] = inr d
            /\ dict_get d (str "A") = Some (normalize v).
Proof.
  split; [simpl; lia |]. split.
  - apply (proj1 (row_dict_is_a_dictionary
                    [str "A"; str "B"; str "A"; str "C"]
                    [VNum 1; VNum 2; VLob (str "x")])).
    simpl. lia.
  - exists (VLob (str "x")). split; [reflexivity |].
    eexists. split; reflexivity.
Defined.

Lemma catalog_queries_pass_every_tier_witness :
  In table_constraints_sql catalog_queries
  /\ execute_safe_query latin (config_of LIMITED_WRITE [str "*"] 10)
       five_row_db table_constraints_sql None
     = run_statement latin (config_of LIMITED_WRITE [str "*"] 10)
         five_row_db table_constraints_sql None.
Proof.
  assert (H : In table_constraints_sql catalog_queries).
  { right. right. right. right. now left. }
  split; [exact H |].
  exact (proj1 (catalog_queries_pass_every_tier latin
                  (config_of LIMITED_WRITE [str "*"] 10) five_row_db
                  table_constraints_sql None H)).
Defined.

Lemma catalog_calls_after_the_schema_check_witness :
  snd (_is_schema_allowed latin (config_of LIMITED_WRITE [str "HR"] 10)
         five_row_db (default_schema latin (str "scott") (Some (str "hr"))))
  = inr true
  /\ get_all_tables latin (config_of LIMITED_WRITE [str "HR"] 10)
       (str "scott") five_row_db (Some (str "hr"))
     = (fst (_is_schema_allowed latin (config_of LIMITED_WRITE [str "HR"] 10)
               five_row_db
               (default_schema latin (str "scott") (Some (str "hr"))))
          ++ fst (run_statement latin (config_of LIMITED_WRITE [str "HR"] 10)
                    five_row_db all_tables_sql
                    (Some [VText (default_schema latin (str "scott")
                                    (Some (str "hr")))])),
        snd (from_io
               (run_statement latin (config_of LIMITED_WRITE [str "HR"] 10)
                  five_row_db all_tables_sql
                  (Some [VText (default_schema latin (str "scott")
                                  (Some (str "hr")))])))).
Proof.
  split; [reflexivity |].
  exact (proj1 (proj1 (catalog_calls_after_the_schema_check latin
                         (config_of LIMITED_WRITE [str "HR"] 10)
                         (str "scott") five_row_db (str "emp")
                         (Some (str "hr"))) eq_refl)).
Defined.

Lemma index_and_constraint_lookups_degrade_witness :
  snd (_is_schema_allowed latin (config_of READONLY [str "*"] 10) broken_db
         (default_schema latin (str "scott") None)) = inr true
  /\ snd (get_table_indexes latin (config_of READONLY [str "*"] 10)
            (str "scott") broken_db (str "emp") None)
     = inr (match snd (run_statement latin (config_of READONLY [str "*"] 10)
                         broken_db table_indexes_sql
                         (Some [VText (upper latin (str "emp"));
                                VText (upper latin
                                         (default_schema latin (str "scott")
                                            None))])) with
            | inl _ => []
            | inr rows => rows
            end).
Proof.
  split; [reflexivity |].
  exact (proj1 (proj2 (index_and_constraint_lookups_degrade latin
                         (config_of READONLY [str "*"] 10) (str "scott")
                         broken_db (str "emp") None) eq_refl)).
Defined.

Example index_lookup_on_a_broken_database :
  get_table_indexes latin (config_of READONLY [str "*"] 10) (str "scott")
    broken_db (str "emp") None
  = ([Connect; Execute alter_session []; CloseConnection], inr []).
Proof. reflexivity. Qed.

Lemma connection_test_answers_witness :
  session_opens (config_of READONLY [str "*"] 1) dual_db = true
  /\ (1 <= max_result_rows (config_of READONLY [str "*"] 1))%Z
  /\ snd (test_connection latin (config_of READONLY [str "*"] 1) dual_db)
     = inr (equals_one (normalize (VNum 1))).
Proof.
  split; [reflexivity |]. split; [simpl; lia |].
  apply (proj2 (proj2 (connection_test_answers latin
                         (config_of READONLY [str "*"] 1) dual_db))
           one_row (str "1") [] (VNum 1) [] [] eq_refl eq_refl eq_refl
           eq_refl).
  - repeat constructor.
  - simpl. lia.
Defined.

(** With a row cap of zero the connection test fails on a healthy
    database. *)
Example connection_test_cap_zero :
  snd (test_connection latin (config_of READONLY [str "*"] 0) dual_db)
  = inr false
  /\ snd (test_connection latin (config_of READONLY [str "*"] 1) dual_db)
     = inr true.
Proof. split; reflexivity. Qed.

Lemma security_mode_round_trip_witness :
  validate_security_mode plain (str "Limited_Write") = Some LIMITED_WRITE
  /\ lower plain (str "Limited_Write") = mode_value LIMITED_WRITE.
Proof.
  split; [reflexivity |].
  exact (proj2 (proj2 (security_mode_round_trip latin plain LIMITED_WRITE))
           (str "Limited_Write") LIMITED_WRITE eq_refl).
Defined.

Lemma comma_separated_names_witness :
  (forall w, In w [str "HR"; str " FINANCE"] -> ~ In 44 w)
  /\ split_on 44 (join [44] [str "HR"; str " FINANCE"])
     = [str "HR"; str " FINANCE"].
Proof.
  assert (H : forall w, In w [str "HR"; str " FINANCE"] -> ~ In 44 w).
  { intros w [<- | [<- | []]] Hin; simpl in Hin;
      repeat destruct Hin as [Hin | Hin]; try discriminate; contradiction. }
  split; [exact H |].
  exact (proj2 (proj2 (proj2 (comma_separated_names (str "HR, FINANCE"))))
           (str "HR") [str " FINANCE"] H).
Defined.

Lemma required_variables_are_checked_together_witness :
  unset env_without_secrets (map fst required_env_vars) <> []
  /\ from_env_data plain env_without_secrets
     = inl (MissingVariables [str "ORACLE_USERNAME"; str "ORACLE_PASSWORD"]).
Proof.
  assert (H : unset env_without_secrets (map fst required_env_vars) <> []).
  { vm_compute. discriminate. }
  split; [exact H |].
  apply (proj1 (proj2 (required_variables_are_checked_together plain
                         env_without_secrets))); [| exact H].
  intros p Hp. vm_compute in Hp. injection Hp as <-. vm_compute. discriminate.
Defined.

Lemma connection_identifier_is_unique_witness :
  is_set (env_with_both (str "ORACLE_SERVICE_NAME")) = true
  /\ exists data,
       from_env_data plain env_with_both = inr data
       /\ data_get data (str "service_name") = Some (SText (str "ORCL"))
       /\ data_get data (str "sid") = None.
Proof.
  split; [reflexivity |]. eexists. split; [reflexivity |].
  exact (proj1 (connection_identifier_is_unique plain env_with_both _
                  eq_refl) eq_refl).
Defined.

(** The names of ORACLE_ALLOWED_SCHEMAS are not trimmed: after a comma
    and a blank the second name keeps the blank and matches no schema. *)
Example untrimmed_schema_name :
  split_on 44 (str "HR, FINANCE") = [str "HR"; str " FINANCE"]
  /\ _is_schema_allowed latin
       (config_of READONLY (split_on 44 (str "HR, FINANCE")) 10) dual_db
       (str "finance") = ret false
  /\ _is_schema_allowed latin
       (config_of READONLY (split_on 44 (str "HR,FINANCE")) 10) dual_db
       (str "finance") = ret true.
Proof. repeat split; reflexivity. Qed.

Lemma session_directive_comes_first_witness :
  validate_sql latin two_column_query
    (security_mode (config_of READONLY [str "*"] 10)) = true
  /\ is_readonly_mode (config_of READONLY [str "*"] 10) = true
  /\ execute broken_db alter_session [] = Raises
  /\ execute_query latin (config_of READONLY [str "*"] 10) broken_db
       two_column_query None
     = ([Connect; Execute alter_session []; CloseConnection],
        inl DatabaseError).
Proof.
  split; [reflexivity |]. split; [reflexivity |]. split; [reflexivity |].
  exact (proj2 (proj2 (session_directive_comes_first latin
                         (config_of READONLY [str "*"] 10) broken_db
                         two_column_query None eq_refl eq_refl))
           eq_refl eq_refl).
Defined.

Lemma two_words_occurrence_witness :
  re_search latin (two_words "DELETE" "FROM")
    (str "SELECT 1; DELETE   FROM T") = true
  /\ exists before gap after,
       str "SELECT 1; DELETE   FROM T"
       = before ++ str "DELETE" ++ gap ++ str "FROM" ++ after
       /\ gap <> []
       /\ forallb isspace gap = true
       /\ at_boundary latin (last_seen before None)
            (str "DELETE" ++ gap ++ str "FROM" ++ after) = true
       /\ at_boundary latin
            (last_seen (str "FROM")
               (last_seen gap
                  (last_seen (str "DELETE") (last_seen before None))))
            after = true.
Proof.
  split; [reflexivity |].
  exact (proj1 (two_words_occurrence latin "DELETE" "FROM"
                  (str "SELECT 1; DELETE   FROM T")) eq_refl).
Defined.

Lemma readonly_select_iff_witness :
  leading_keyword latin two_column_query = str "SELECT"
  /\ (validate_sql latin two_column_query READONLY = true <->
      forall pattern, In pattern dangerous_patterns ->
                      re_search latin pattern
                        (sql_upper latin two_column_query) = false).
Proof.
  split; [reflexivity |].
  exact (readonly_select_iff latin two_column_query eq_refl).
Defined.

Lemma leading_keyword_first_word_witness :
  upper_respects_space latin
  /\ leading_keyword latin (str "  select 1 from dual")
     = upper latin (_extract_first_keyword (str "  select 1 from dual")).
Proof.
  split; [exact upper_respects_space_latin |].
  exact (leading_keyword_first_word latin (str "  select 1 from dual")
           upper_respects_space_latin).
Defined.

Lemma auto_discover_follows_driver_witness :
  ~ In (str "*") (allowed_schemas (config_of LIMITED_WRITE [str "auto"] 1))
  /\ (1 <= max_result_rows (config_of LIMITED_WRITE [str "auto"] 1))%Z
  /\ snd (_is_schema_allowed latin (config_of LIMITED_WRITE [str "auto"] 1)
            five_row_db (str "hr"))
     = inr (0 <? length (fetchall five_rows))%nat.
Proof.
  assert (H1 : ~ In (str "*")
                   (allowed_schemas (config_of LIMITED_WRITE [str "auto"] 1))).
  { simpl. intros [H | []]. discriminate. }
  split; [exact H1 |]. split; [simpl; lia |].
  apply (auto_discover_follows_driver latin
           (config_of LIMITED_WRITE [str "auto"] 1) five_row_db (str "hr")
           five_rows [str "ID"; str "NAME"] H1).
  - simpl. now left.
  - reflexivity.
  - reflexivity.
  - reflexivity.
  - repeat constructor.
  - simpl. lia.
Defined.


